(** * The tool-calling chatbot of L3.ipynb

    A shallow embedding of [execute_tool], [process_query] and [chat_loop]
    from the notebook L3.ipynb, of the tool functions [search_papers] and
    [extract_info], and the properties of the turn loop that the
    specification states about them.

    Modelling conventions.
    - A Python [str] is a [string] whose characters are code points below 256.
    - Python values returned by tools are the inductive type [pyvalue]:
      [None], [bool], [int], [float], [str], [list], [tuple], [dict] and
      objects of other classes.  A [dict] is an association list in
      insertion order.  Values are finite trees: a container that holds
      itself is not a [pyvalue], and neither the recursion limit of the
      interpreter nor the exhaustion of memory is modelled.  An instance of
      a class derived from [list] or [dict] is taken for a list or a dict;
      instances of classes derived from the other built-in classes are not
      modelled.
    - The interpreter is CPython 3.11 (the kernel of the notebook) with its
      settings unchanged: an [int] of more than 4300 digits has no decimal
      text.
    - The model backend and the tools are external and effectful: they are
      functions over an abstract [World] that is threaded through every call.
      So are [str()] and [repr()] of objects of other classes, which are
      methods of these classes.
    - Python exceptions are values of type [exn]; a computation returns
      [inl e] when it raises [e].
    - [while] loops take a fuel argument that bounds the number of
      iterations; running out of fuel is reported as such. *)

From Stdlib Require Import ZArith Ascii String List.
From stdpp Require Import base option list strings pretty gmap.

Open Scope string_scope.
Open Scope list_scope.
Set Warnings "-register-all".

(** ** Python values *)

(** A [float].  A finite one is given by its [repr], the text that Python
    prints for it. *)
Inductive pyfloat : Type :=
  | Finite (repr : string)
  | NaN
  | Infinity (negative : bool).

(** What a tool may return.  [POther ty obj] is an object of any other
    class [ty] (a set, a bytes object, an instance of a user class),
    described by [obj]; [json] cannot serialize it, and what [str()] and
    [repr()] make of it is up to its class. *)
Inductive pyvalue : Type :=
  | PNone
  | PBool (b : bool)
  | PInt (z : Z)
  | PFloat (x : pyfloat)
  | PStr (s : string)
  | PList (items : list pyvalue)
  | PTuple (items : list pyvalue)
  | PDict (items : list (pyvalue * pyvalue))
  | POther (ty : string) (obj : string).

(** Exceptions.  [Raised msg] is any other instance of [Exception] raised by
    a tool, by the model backend or by a method of an object, with
    [str(e) = msg]; the messages of the built-in exceptions are not
    modelled.  [KeyboardInterrupt] and [SystemExit] derive from
    [BaseException] without being instances of [Exception]. *)
Inductive exn : Type :=
  | KeyError (key : string)
  | TypeError
  | ValueError
  | EOFError
  | Raised (msg : string)
  | KeyboardInterrupt
  | SystemExit.

(** [isinstance(e, Exception)], the test of [except Exception as e]. *)
Definition is_exception (e : exn) : bool :=
  match e with
  | KeyError _ | TypeError | ValueError | EOFError | Raised _ => true
  | KeyboardInterrupt | SystemExit => false
  end.

Definition quote_char : ascii := ascii_of_nat 34.
Definition apostrophe_char : ascii := ascii_of_nat 39.
Definition backslash_char : ascii := ascii_of_nat 92.
Definition newline_char : ascii := ascii_of_nat 10.

Definition str1 (c : ascii) : string := String c EmptyString.

(** *** [str.join] *)

(** [sep.join(items)]: every item must be a [str]. *)
Fixpoint str_items (items : list pyvalue) : exn + list string :=
  match items with
  | [] => inr []
  | PStr s :: rest =>
      match str_items rest with
      | inl e => inl e
      | inr ss => inr (s :: ss)
      end
  | _ :: _ => inl TypeError
  end.

Definition str_join (sep : string) (items : list pyvalue) : exn + string :=
  match str_items items with
  | inl e => inl e
  | inr ss => inr (String.concat sep ss)
  end.

(** *** The text of a number *)

(** [sys.int_max_str_digits], as the interpreter starts with it. *)
Definition int_max_str_digits : Z := 4300.

(** The least natural number that has more digits than that. *)
Definition int_str_limit : Z := Eval vm_compute in (10 ^ int_max_str_digits)%Z.

Definition within_digits (z : Z) : bool := Z.ltb (Z.abs z) int_str_limit.

(** [str(n)] and [repr(n)] of an [int], which is also the [int.__repr__]
    that [json] calls: the decimal text, or a [ValueError] when the int has
    more digits than the limit. *)
Definition int_str (z : Z) : exn + string :=
  if within_digits z then inr (pretty z) else inl ValueError.

(** [str(x)] and [repr(x)] of a [float]. *)
Definition float_str (x : pyfloat) : string :=
  match x with
  | Finite repr => repr
  | NaN => "nan"
  | Infinity false => "inf"
  | Infinity true => "-inf"
  end.

(** The [floatstr] of [json.encoder], with [allow_nan] left on. *)
Definition float_json (x : pyfloat) : string :=
  match x with
  | Finite repr => repr
  | NaN => "NaN"
  | Infinity false => "Infinity"
  | Infinity true => "-Infinity"
  end.

(** *** [json.dumps(obj, indent=2)] *)

Definition hex_digit (n : nat) : ascii :=
  match String.get n "0123456789abcdef" with
  | Some c => c
  | None => "0"%char
  end.

Definition hex2 (n : nat) : string :=
  String (hex_digit (n / 16)) (str1 (hex_digit (n mod 16))).

(** One character of [py_encode_basestring_ascii]: the two-character escapes
    of ESCAPE_DCT, the printable ASCII range unchanged, [\u00xx] otherwise. *)
Definition escape_ascii (c : ascii) : string :=
  let n := nat_of_ascii c in
  if Nat.eqb n 92 then String backslash_char (str1 backslash_char)
  else if Nat.eqb n 34 then String backslash_char (str1 quote_char)
  else if Nat.eqb n 8 then String backslash_char "b"
  else if Nat.eqb n 12 then String backslash_char "f"
  else if Nat.eqb n 10 then String backslash_char "n"
  else if Nat.eqb n 13 then String backslash_char "r"
  else if Nat.eqb n 9 then String backslash_char "t"
  else if (Nat.leb 32 n && Nat.leb n 126)%bool then str1 c
  else String backslash_char ("u00" +:+ hex2 n).

Fixpoint escape_string (s : string) : string :=
  match s with
  | EmptyString => EmptyString
  | String c rest => escape_ascii c +:+ escape_string rest
  end.

Definition encode_basestring_ascii (s : string) : string :=
  String quote_char (escape_string s +:+ str1 quote_char).

(** A dict key as JSON writes it: [str] keys as they are, [float], [bool],
    [None] and [int] keys converted, anything else is a [TypeError]. *)
Definition json_key (k : pyvalue) : exn + string :=
  match k with
  | PStr s => inr s
  | PFloat x => inr (float_json x)
  | PBool true => inr "true"
  | PBool false => inr "false"
  | PNone => inr "null"
  | PInt z => int_str z
  | PList _ | PTuple _ | PDict _ | POther _ _ => inl TypeError
  end.

Fixpoint spaces (n : nat) : string :=
  match n with
  | O => EmptyString
  | S k => String " "%char (spaces k)
  end.

Definition newline_indent (indent level : nat) : string :=
  String newline_char (spaces (indent * level)).

(** The chunks of the items of a container, in order; the first item that
    cannot be encoded raises. *)
Section Chunks.

Context {A : Type} (encode : A -> exn + string).

Fixpoint chunks (items : list A) : exn + list string :=
  match items with
  | [] => inr []
  | item :: rest =>
      match encode item with
      | inl e => inl e
      | inr s =>
          match chunks rest with
          | inl e => inl e
          | inr ss => inr (s :: ss)
          end
      end
  end.

End Chunks.

(** A list or a tuple between its brackets, items one to a line. *)
Definition json_array (indent level : nat) (ss : list string) : string :=
  "[" +:+ newline_indent indent (S level)
      +:+ String.concat ("," +:+ newline_indent indent (S level)) ss
      +:+ newline_indent indent level +:+ "]".

(** The encoder of [json.dumps] with [indent] set: item separator [","],
    key separator [": "], keys in the order in which the dict holds them; a
    tuple is written as a list. *)
Fixpoint iterencode (indent level : nat) (o : pyvalue) {struct o} : exn + string :=
  match o with
  | PNone => inr "null"
  | PBool true => inr "true"
  | PBool false => inr "false"
  | PInt z => int_str z
  | PFloat x => inr (float_json x)
  | PStr s => inr (encode_basestring_ascii s)
  | PList [] | PTuple [] => inr "[]"
  | PList lst | PTuple lst =>
      match chunks (iterencode indent (S level)) lst with
      | inl e => inl e
      | inr ss => inr (json_array indent level ss)
      end
  | PDict [] => inr "{}"
  | PDict dct =>
      match chunks (fun '(key, value) =>
                      match json_key key with
                      | inl e => inl e
                      | inr k =>
                          match iterencode indent (S level) value with
                          | inl e => inl e
                          | inr s => inr (encode_basestring_ascii k +:+ ": " +:+ s)
                          end
                      end) dct with
      | inl e => inl e
      | inr ss =>
          inr ("{" +:+ newline_indent indent (S level)
                   +:+ String.concat ("," +:+ newline_indent indent (S level)) ss
                   +:+ newline_indent indent level +:+ "}")
      end
  | POther _ _ => inl TypeError
  end.

Definition json_dumps (obj : pyvalue) (indent : nat) : exn + string :=
  iterencode indent 0 obj.

(** *** [str()] and [repr()] *)

(** [str.isprintable] of one character. *)
Definition is_printable (c : ascii) : bool :=
  let n := nat_of_ascii c in
  ((Nat.leb 32 n && Nat.leb n 126) || (Nat.leb 161 n && negb (Nat.eqb n 173)))%bool.

Fixpoint has_char (c : ascii) (s : string) : bool :=
  match s with
  | EmptyString => false
  | String c' rest => Ascii.eqb c c' || has_char c rest
  end.

(** One character of the [repr] of a [str] that is written between
    [quote]s. *)
Definition repr_char (quote c : ascii) : string :=
  let n := nat_of_ascii c in
  if (Ascii.eqb c quote || Nat.eqb n 92)%bool then String backslash_char (str1 c)
  else if Nat.eqb n 9 then String backslash_char "t"
  else if Nat.eqb n 10 then String backslash_char "n"
  else if Nat.eqb n 13 then String backslash_char "r"
  else if is_printable c then str1 c
  else String backslash_char ("x" +:+ hex2 n).

Fixpoint repr_chars (quote : ascii) (s : string) : string :=
  match s with
  | EmptyString => EmptyString
  | String c rest => repr_char quote c +:+ repr_chars quote rest
  end.

(** [repr(s)] of a [str]: between apostrophes, unless the text holds an
    apostrophe and no double quote. *)
Definition str_repr (s : string) : string :=
  let quote :=
    if (has_char apostrophe_char s && negb (has_char quote_char s))%bool
    then quote_char else apostrophe_char in
  String quote (repr_chars quote s +:+ str1 quote).

(** [str()] and [repr()] of the objects of other classes, by class and
    object.  They are methods of these classes: they may raise, and what
    they return need not depend on the object alone (the [__str__] that a
    class inherits from [object] shows the address of the object, a set
    prints its items in its order of iteration). *)
Record object_methods : Type := ObjectMethods {
  object_str : string -> string -> exn + string;
  object_repr : string -> string -> exn + string
}.

(** [repr(o)]: the items of a container by their own [repr], in order. *)
Fixpoint py_repr (m : object_methods) (o : pyvalue) {struct o} : exn + string :=
  match o with
  | PNone => inr "None"
  | PBool true => inr "True"
  | PBool false => inr "False"
  | PInt z => int_str z
  | PFloat x => inr (float_str x)
  | PStr s => inr (str_repr s)
  | PList items =>
      match chunks (py_repr m) items with
      | inl e => inl e
      | inr ss => inr ("[" +:+ String.concat ", " ss +:+ "]")
      end
  | PTuple items =>
      match chunks (py_repr m) items with
      | inl e => inl e
      | inr [s] => inr ("(" +:+ s +:+ ",)")
      | inr ss => inr ("(" +:+ String.concat ", " ss +:+ ")")
      end
  | PDict items =>
      match chunks (fun '(key, value) =>
                      match py_repr m key with
                      | inl e => inl e
                      | inr k =>
                          match py_repr m value with
                          | inl e => inl e
                          | inr s => inr (k +:+ ": " +:+ s)
                          end
                      end) items with
      | inl e => inl e
      | inr ss => inr ("{" +:+ String.concat ", " ss +:+ "}")
      end
  | POther ty obj => object_repr m ty obj
  end.

(** [str(o)]: the text itself for a [str], the [repr] for the other
    built-in classes. *)
Definition py_str (m : object_methods) (o : pyvalue) : exn + string :=
  match o with
  | PStr s => inr s
  | POther ty obj => object_str m ty obj
  | _ => py_repr m o
  end.

(** ** Tool execution *)

Definition no_results : string :=
  "The operation completed but didn't return any results.".

(** The [if]/[elif] chain of [execute_tool] on the value a tool returned. *)
Definition normalize (m : object_methods) (result : pyvalue) : exn + string :=
  match result with
  | PNone => inr no_results
  | PList items => str_join ", " items
  | PDict _ => json_dumps result 2
  | _ => py_str m result
  end.

(** ** Conversation data *)

(** A content block of a model response: [content.type] is ['text'],
    ['tool_use'] or something else (which the loop skips).  The [input] of
    a tool call has been parsed from JSON, so that the loop can always
    print it. *)
Inductive block : Type :=
  | TextBlock (text : string)
  | ToolUseBlock (id : string) (name : string) (input : pyvalue)
  | OtherBlock (type : string).

(** The dict [{"type": "tool_result", "tool_use_id": ..., "content": ...}]. *)
Record tool_result : Type := ToolResult {
  tool_use_id : string;
  content : string
}.

(** A Python list object is named by its position in the store of lists. *)
Definition loc : Type := nat.

(** An element of the Python list [messages].  The assistant dict holds a
    reference to the list object [assistant_content], not a copy of it. *)
Inductive turn : Type :=
  | UserTurn (query : string)
  | AssistantTurn (assistant_content : loc)
  | ToolResultTurn (results : list tool_result).

(** A turn as the model backend receives it, with every reference read. *)
Inductive message : Type :=
  | UserMessage (query : string)
  | AssistantMessage (blocks : list block)
  | ToolResultMessage (results : list tool_result).

Definition role (m : message) : string :=
  match m with
  | UserMessage _ => "user"
  | AssistantMessage _ => "assistant"
  | ToolResultMessage _ => "user"
  end.

(** What the program prints. *)
Inductive event : Type :=
  | PrintText (text : string)
  | PrintCallingTool (tool_name : string) (tool_args : pyvalue)
  | PrintBanner
  | PrintPrompt
  | PrintBlankLine
  | PrintError (e : exn).

Definition is_text (b : block) : bool :=
  match b with TextBlock _ => true | _ => false end.

Definition is_tool_use (b : block) : bool :=
  match b with ToolUseBlock _ _ _ => true | _ => false end.

Definition is_calling_tool (ev : event) : bool :=
  match ev with PrintCallingTool _ _ => true | _ => false end.

Definition read_turn (lists : list (list block)) (t : turn) : message :=
  match t with
  | UserTurn q => UserMessage q
  | AssistantTurn l => AssistantMessage (default [] (lists !! l))
  | ToolResultTurn rs => ToolResultMessage rs
  end.

(** ** [input().strip()] and [.lower()] *)

Definition is_space (c : ascii) : bool :=
  let n := nat_of_ascii c in
  ((Nat.leb 9 n && Nat.leb n 13) || (Nat.leb 28 n && Nat.leb n 32)
   || Nat.eqb n 133 || Nat.eqb n 160)%bool.

Fixpoint lstrip (s : string) : string :=
  match s with
  | EmptyString => EmptyString
  | String c rest => if is_space c then lstrip rest else s
  end.

Fixpoint rstrip (s : string) : string :=
  match s with
  | EmptyString => EmptyString
  | String c rest =>
      match rstrip rest with
      | EmptyString => if is_space c then EmptyString else str1 c
      | rest' => String c rest'
      end
  end.

Definition strip (s : string) : string := rstrip (lstrip s).

Definition lower_char (c : ascii) : ascii :=
  let n := nat_of_ascii c in
  if ((Nat.leb 65 n && Nat.leb n 90)
      || (Nat.leb 192 n && Nat.leb n 222 && negb (Nat.eqb n 215)))%bool
  then ascii_of_nat (n + 32) else c.

Fixpoint lower (s : string) : string :=
  match s with
  | EmptyString => EmptyString
  | String c rest => String (lower_char c) (lower rest)
  end.

(** ** The program *)

Section Chatbot.

Context {World : Type}.

(** A tool function, called with [tool_args] as its keyword arguments: it
    may raise, and it may read and change the world (the file system, the
    network). *)
Definition capability : Type := pyvalue -> World -> (exn + pyvalue) * World.

(** What [str()] and [repr()] make of the objects of other classes, in a
    given state of the world. *)
Variable methods : World -> object_methods.

(** The dict [mapping_tool_function]. *)
Variable mapping_tool_function : gmap string capability.

(** [client.messages.create(max_tokens=..., model=..., tools=tools,
    messages=messages)]: the content of the response, or an exception. *)
Variable messages_create : list message -> World -> (exn + list block) * World.

Definition execute_tool (tool_name : string) (tool_args : pyvalue) (w : World)
  : (exn + string) * World :=
  match mapping_tool_function !! tool_name with
  | None => (inl (KeyError tool_name), w)
  | Some f =>
      match f tool_args w with
      | (inl e, w') => (inl e, w')
      | (inr result, w') => (normalize (methods w') result, w')
      end
  end.

(** The variables of one call of [process_query], the list objects it has
    created, what it has printed and what it has sent to the backend. *)
Record pq_state : Type := PQState {
  messages : list turn;
  lists : list (list block);
  response : list block;
  process_query_flag : bool;
  stdout : list event;
  requests : list (list message);
  world : World
}.

Definition snapshot (st : pq_state) : list message :=
  map (read_turn (lists st)) (messages st).

(** Computations of [process_query]: state passing with exceptions. *)
Definition M (A : Type) : Type := pq_state -> (exn + A) * pq_state.

Definition ret {A : Type} (a : A) : M A := fun st => (inr a, st).

Definition bind {A B : Type} (m : M A) (k : A -> M B) : M B :=
  fun st =>
    match m st with
    | (inl e, st') => (inl e, st')
    | (inr a, st') => k a st'
    end.

Notation "x <- m ;; k" := (bind m (fun x => k))
  (at level 100, m at next level, right associativity).
Notation "m ;; k" := (bind m (fun _ => k))
  (at level 100, right associativity).

Definition print (ev : event) : M unit := fun st =>
  (inr tt, PQState (messages st) (lists st) (response st) (process_query_flag st)
                   (stdout st ++ [ev]) (requests st) (world st)).

(** [assistant_content = []] creates a list object. *)
Definition new_list : M loc := fun st =>
  (inr (length (lists st)),
   PQState (messages st) (lists st ++ [[]]) (response st) (process_query_flag st)
           (stdout st) (requests st) (world st)).

(** [assistant_content.append(content)] changes the list object in place. *)
Definition list_append (l : loc) (b : block) : M unit := fun st =>
  (inr tt, PQState (messages st) (alter (fun bs => bs ++ [b]) l (lists st))
                   (response st) (process_query_flag st)
                   (stdout st) (requests st) (world st)).

Definition messages_append (t : turn) : M unit := fun st =>
  (inr tt, PQState (messages st ++ [t]) (lists st) (response st)
                   (process_query_flag st) (stdout st) (requests st) (world st)).

Definition set_response (r : list block) : M unit := fun st =>
  (inr tt, PQState (messages st) (lists st) r (process_query_flag st)
                   (stdout st) (requests st) (world st)).

Definition get_response : M (list block) := fun st => (inr (response st), st).

Definition set_process_query (b : bool) : M unit := fun st =>
  (inr tt, PQState (messages st) (lists st) (response st) b
                   (stdout st) (requests st) (world st)).

Definition call_execute_tool (tool_name : string) (tool_args : pyvalue) : M string :=
  fun st =>
    let '(r, w) := execute_tool tool_name tool_args (world st) in
    (r, PQState (messages st) (lists st) (response st) (process_query_flag st)
                (stdout st) (requests st) w).

(** The backend is sent what [messages] holds at the time of the call. *)
Definition call_messages_create : M (list block) := fun st =>
  let '(r, w) := messages_create (snapshot st) (world st) in
  (r, PQState (messages st) (lists st) (response st) (process_query_flag st)
              (stdout st) (requests st ++ [snapshot st]) w).

(** The body of [for content in response.content], over the blocks that are
    left of the list the loop was started on. *)
Fixpoint for_content (assistant_content : loc) (blocks : list block) : M unit :=
  match blocks with
  | [] => ret tt
  | content :: rest =>
      match content with
      | TextBlock text =>
          print (PrintText text) ;;
          list_append assistant_content content ;;
          response <- get_response ;;
          (if Nat.eqb (length response) 1 then set_process_query false else ret tt) ;;
          for_content assistant_content rest
      | ToolUseBlock tool_id tool_name tool_args =>
          list_append assistant_content content ;;
          messages_append (AssistantTurn assistant_content) ;;
          print (PrintCallingTool tool_name tool_args) ;;
          result <- call_execute_tool tool_name tool_args ;;
          messages_append (ToolResultTurn [ToolResult tool_id result]) ;;
          response <- call_messages_create ;;
          set_response response ;;
          match response with
          | [TextBlock text] =>
              print (PrintText text) ;;
              set_process_query false
          | _ => ret tt
          end ;;
          for_content assistant_content rest
      | OtherBlock _ => for_content assistant_content rest
      end
  end.

Inductive outcome : Type :=
  | Returns (st : pq_state)
  | Raises (e : exn) (st : pq_state)
  | OutOfFuel (st : pq_state).

(** [while process_query: ...], at most [fuel] iterations. *)
Fixpoint while_process_query (fuel : nat) (st : pq_state) : outcome :=
  if process_query_flag st then
    match fuel with
    | O => OutOfFuel st
    | S fuel' =>
        match (assistant_content <- new_list ;;
               response <- get_response ;;
               for_content assistant_content response) st with
        | (inl e, st') => Raises e st'
        | (inr _, st') => while_process_query fuel' st'
        end
    end
  else Returns st.

Definition initial_state (query : string) (w : World) : pq_state :=
  PQState [UserTurn query] [] [] true [] [] w.

Definition process_query (fuel : nat) (query : string) (w : World) : outcome :=
  match (response <- call_messages_create ;;
         set_response response ;;
         set_process_query true) (initial_state query w) with
  | (inl e, st) => Raises e st
  | (inr _, st) => while_process_query fuel st
  end.

Inductive chat_outcome : Type :=
  | ChatExits (out : list event) (stdin : list string) (w : World)
  | ChatRaises (e : exn) (out : list event) (stdin : list string) (w : World)
  | ChatOutOfFuel (out : list event) (stdin : list string) (w : World).

(** [while True: try: ... except Exception as e: ...], reading the lines of
    [stdin]; [input] prints its prompt and raises [EOFError] when no line is
    left.  The handler takes the instances of [Exception]; any other
    exception leaves [chat_loop]. *)
Fixpoint chat_while (fuel pq_fuel : nat) (stdin : list string)
    (out : list event) (w : World) : chat_outcome :=
  match fuel with
  | O => ChatOutOfFuel out stdin w
  | S fuel' =>
      match stdin with
      | [] => chat_while fuel' pq_fuel [] (out ++ [PrintPrompt; PrintError EOFError]) w
      | line :: stdin' =>
          let query := strip line in
          if String.eqb (lower query) "quit" then ChatExits (out ++ [PrintPrompt]) stdin' w
          else
            match process_query pq_fuel query w with
            | Returns st =>
                chat_while fuel' pq_fuel stdin'
                  (out ++ [PrintPrompt] ++ stdout st ++ [PrintBlankLine]) (world st)
            | Raises e st =>
                if is_exception e then
                  chat_while fuel' pq_fuel stdin'
                    (out ++ [PrintPrompt] ++ stdout st ++ [PrintError e]) (world st)
                else ChatRaises e (out ++ [PrintPrompt] ++ stdout st) stdin' (world st)
            | OutOfFuel st =>
                ChatOutOfFuel (out ++ [PrintPrompt] ++ stdout st) stdin' (world st)
            end
      end
  end.

Definition chat_loop (fuel pq_fuel : nat) (stdin : list string) (w : World)
  : chat_outcome :=
  chat_while fuel pq_fuel stdin [PrintBanner] w.

End Chatbot.

(** ** Vocabulary of the properties *)

(** The ids of the tool-call requests of a response, in block order. *)
Definition tool_use_ids (blocks : list block) : list string :=
  omap (fun b => match b with ToolUseBlock id _ _ => Some id | _ => None end) blocks.

(** What the loop prints for the blocks of a response, in block order. *)
Definition block_event (b : block) : option event :=
  match b with
  | TextBlock text => Some (PrintText text)
  | ToolUseBlock _ tool_name tool_args => Some (PrintCallingTool tool_name tool_args)
  | OtherBlock _ => None
  end.

Definition block_events (blocks : list block) : list event := omap block_event blocks.

(** The conversation that a single batched round would send: the query, one
    assistant turn with all blocks of the response, one tool-result turn
    with one entry per request id. *)
Definition batched_round (blocks : list block) (request : list message) : Prop :=
  exists query results,
    request = [UserMessage query; AssistantMessage blocks; ToolResultMessage results]
    /\ map tool_use_id results = tool_use_ids blocks.

(** *** The tool calls of a response and their rounds *)

(** A tool call of a response, with the blocks of the response that come
    before it. *)
Record tool_call : Type := ToolCall {
  call_before : list block;
  call_id : string;
  call_name : string;
  call_args : pyvalue
}.

Definition call_block (c : tool_call) : block :=
  ToolUseBlock (call_id c) (call_name c) (call_args c).

(** The tool calls of [blocks] in block order, when [before] is what
    comes before [blocks] in the response. *)
Fixpoint tool_calls (before blocks : list block) : list tool_call :=
  match blocks with
  | [] => []
  | b :: rest =>
      match b with
      | ToolUseBlock id name args => [ToolCall before id name args]
      | _ => []
      end ++ tool_calls (before ++ [b]) rest
  end.

(** The blocks of a response that go into the assistant turn: the text
    blocks and the tool calls. *)
Definition kept (blocks : list block) : list block :=
  List.filter (fun b => is_text b || is_tool_use b) blocks.

(** The content of the assistant turn when a tool call is answered: what
    is kept of the response up to the call, the call included. *)
Definition content_at (c : tool_call) : list block :=
  kept (call_before c ++ [call_block c]).

(** What the loop prints of the answer to a tool call: its text when it is
    a single text block. *)
Definition final_text (answer : list block) : list event :=
  match answer with
  | [TextBlock text] => [PrintText text]
  | _ => []
  end.

(** What a pass over [blocks] prints when its tool calls are answered by
    [answers], in turn: the text of a text block, the line of a tool call
    followed by what is printed of its answer, nothing for another block.
    A tool call without an answer prints its line only. *)
Fixpoint pass_events (blocks : list block) (answers : list (list block)) : list event :=
  match blocks with
  | [] => []
  | TextBlock text :: rest => PrintText text :: pass_events rest answers
  | ToolUseBlock _ tool_name tool_args :: rest =>
      PrintCallingTool tool_name tool_args ::
        match answers with
        | [] => pass_events rest []
        | answer :: answers' => final_text answer ++ pass_events rest answers'
        end
  | OtherBlock _ :: rest => pass_events rest answers
  end.

Section Passes.

Context {World : Type}.
Variable methods : World -> object_methods.
Variable mapping_tool_function : gmap string (@capability World).
Variable messages_create : list message -> World -> (exn + list block) * World.

(** One round of a pass: a tool call, the string that [execute_tool]
    returned for it, the conversation that the backend was then sent, the
    answer of the backend, and the worlds that the tool and the backend
    left. *)
Record round : Type := Round {
  round_call : tool_call;
  round_result : string;
  round_request : list message;
  round_answer : list block;
  tool_world : World;
  answer_world : World
}.

(** The rounds take place one after the other from the world [w]: the call
    of each round is executed by [execute_tool], which returns the result
    of the round, and the backend is then called with the request of the
    round and gives its answer. *)
Fixpoint in_turn (w : World) (rounds : list round) : Prop :=
  match rounds with
  | [] => True
  | r :: rest =>
      execute_tool methods mapping_tool_function
        (call_name (round_call r)) (call_args (round_call r)) w
      = (inr (round_result r), tool_world r)
      /\ messages_create (round_request r) (tool_world r)
         = (inr (round_answer r), answer_world r)
      /\ in_turn (answer_world r) rest
  end.

Definition world_after (w : World) (rounds : list round) : World :=
  fold_left (fun _ r => answer_world r) rounds w.

(** The response that is current after the rounds: the answer of the last
    round, which has replaced the answers of the rounds before it. *)
Definition response_after (current : list block) (rounds : list round) : list block :=
  fold_left (fun _ r => round_answer r) rounds current.

(** The tool-result turn of a round: one entry, with the id of the call
    and the result of the round. *)
Definition round_result_turn (r : round) : list tool_result :=
  [ToolResult (call_id (round_call r)) (round_result r)].

(** The two turns that a round appends to [messages]. *)
Definition round_turns (assistant_content : loc) (r : round) : list turn :=
  [AssistantTurn assistant_content; ToolResultTurn (round_result_turn r)].

(** The request of a round ends with the two turns of the round, the
    assistant turn reading as the content at the call. *)
Definition ends_with_round (r : round) : Prop :=
  exists earlier,
    round_request r
    = earlier ++ [AssistantMessage (content_at (round_call r));
                  ToolResultMessage (round_result_turn r)].

End Passes.

(** *** Values and their normalization *)

(** Values that [json] can serialize: no object of another class, no int
    of too many digits, and dict keys that are [str], [int], [float],
    [bool] or [None]. *)
Definition key_ok (k : pyvalue) : bool :=
  match k with
  | PStr _ | PFloat _ | PBool _ | PNone => true
  | PInt z => within_digits z
  | PList _ | PTuple _ | PDict _ | POther _ _ => false
  end.

Fixpoint serializable (o : pyvalue) : bool :=
  match o with
  | PNone | PBool _ | PFloat _ | PStr _ => true
  | PInt z => within_digits z
  | PList items | PTuple items => forallb serializable items
  | PDict items => forallb (fun '(key, value) => key_ok key && serializable value) items
  | POther _ _ => false
  end.

(** The exceptions of [json.dumps] on a finite value. *)
Definition json_error (e : exn) : Prop := e = TypeError \/ e = ValueError.

Definition is_str (o : pyvalue) : bool :=
  match o with PStr _ => true | _ => false end.

(** Values of the built-in classes throughout, which have a [repr] of
    their own unless they hold an int of too many digits. *)
Fixpoint builtin (o : pyvalue) : bool :=
  match o with
  | PNone | PBool _ | PInt _ | PFloat _ | PStr _ => true
  | PList items | PTuple items => forallb builtin items
  | PDict items => forallb (fun '(key, value) => builtin key && builtin value) items
  | POther _ _ => false
  end.

Fixpoint digits_ok (o : pyvalue) : bool :=
  match o with
  | PInt z => within_digits z
  | PNone | PBool _ | PFloat _ | PStr _ | POther _ _ => true
  | PList items | PTuple items => forallb digits_ok items
  | PDict items => forallb (fun '(key, value) => digits_ok key && digits_ok value) items
  end.

(** Values for which the normalization of [execute_tool] consults no
    method of another class: [None], lists and dicts (which are joined and
    serialized, not printed), and the values that are built-in
    throughout. *)
Definition self_contained (raw : pyvalue) : bool :=
  match raw with
  | PNone | PList _ | PDict _ => true
  | _ => builtin raw
  end.

(** Values on which the normalization of [execute_tool] gives a string
    whatever the methods of other classes do: [None], a list of strings, a
    dict that [json] can serialize, and the built-in values that have a
    [repr]. *)
Definition normalizable (raw : pyvalue) : bool :=
  match raw with
  | PNone => true
  | PList items => forallb is_str items
  | PDict _ => serializable raw
  | _ => builtin raw && digits_ok raw
  end.

(** How deep the containers of a value are nested. *)
Fixpoint depth (o : pyvalue) : nat :=
  match o with
  | PNone | PBool _ | PInt _ | PFloat _ | PStr _ | POther _ _ => 0
  | PList items | PTuple items => S (list_max (map depth items))
  | PDict items =>
      S (list_max (map (fun '(key, value) => Nat.max (depth key) (depth value)) items))
  end.

(** A nesting that leaves the recursion limit of the interpreter far
    away. *)
Definition moderate_depth : nat := 100.

(** One entry of a serialized dict that is nested [level] deep. *)
Definition dict_entry (indent level : nat) (kv : pyvalue * pyvalue) (chunk : string) : Prop :=
  exists k s,
    json_key kv.1 = inr k
    /\ iterencode indent level kv.2 = inr s
    /\ chunk = encode_basestring_ascii k +:+ ": " +:+ s.

(** *** The state between the statements of the loop body *)

Section States.

Context {World : Type}.

(** After the [text] branch. *)
Definition after_text (ac : loc) (text : string) (st : @pq_state World) : pq_state :=
  PQState (messages st)
          (alter (fun bs => bs ++ [TextBlock text]) ac (lists st))
          (response st)
          (if Nat.eqb (length (response st)) 1 then false else process_query_flag st)
          (stdout st ++ [PrintText text]) (requests st) (world st).

(** In the [tool_use] branch, when [execute_tool] has been called and left
    the world [w]. *)
Definition after_call (ac : loc) (b : block) (tool_name : string) (tool_args : pyvalue)
    (w : World) (st : @pq_state World) : pq_state :=
  PQState (messages st ++ [AssistantTurn ac])
          (alter (fun bs => bs ++ [b]) ac (lists st))
          (response st) (process_query_flag st)
          (stdout st ++ [PrintCallingTool tool_name tool_args]) (requests st) w.

(** After the tool-result turn has been appended. *)
Definition after_result (tool_id result : string) (st : @pq_state World) : pq_state :=
  PQState (messages st ++ [ToolResultTurn [ToolResult tool_id result]])
          (lists st) (response st) (process_query_flag st)
          (stdout st) (requests st) (world st).

(** After the backend has been called and left the world [w]. *)
Definition after_request (w : World) (st : @pq_state World) : pq_state :=
  PQState (messages st) (lists st) (response st) (process_query_flag st)
          (stdout st) (requests st ++ [snapshot st]) w.

(** After [response] has been rebound and tested for a single text block. *)
Definition after_response (r : list block) (st : @pq_state World) : pq_state :=
  match r with
  | [TextBlock text] =>
      PQState (messages st) (lists st) r false
              (stdout st ++ [PrintText text]) (requests st) (world st)
  | _ =>
      PQState (messages st) (lists st) r (process_query_flag st)
              (stdout st) (requests st) (world st)
  end.

(** At the head of the loop body, after [assistant_content = []]. *)
Definition after_new_list (st : @pq_state World) : pq_state :=
  PQState (messages st) (lists st ++ [[]]) (response st) (process_query_flag st)
          (stdout st) (requests st) (world st).

(** How a pass of the loop body whose list is [ac] may change the
    conversation: turns are added at the end of [messages], no list object is
    created, the lists of earlier passes are left alone and the list [ac]
    only gets blocks added at its end. *)
Definition grows (ac : loc) (st st' : @pq_state World) : Prop :=
  messages st `prefix_of` messages st'
  /\ length (lists st') = length (lists st)
  /\ (forall l, l <> ac -> lists st' !! l = lists st !! l)
  /\ (forall bs, lists st !! ac = Some bs ->
        exists more, lists st' !! ac = Some (bs ++ more)).

End States.

(** ** Fixtures: a scripted backend and pure tools *)

(** A backend that answers its [n]-th call with the [n]-th entry of a
    script (and with an empty response after the script ends); the world is
    the number of calls made so far. *)
Definition scripted (script : list (exn + list block))
  : list message -> nat -> (exn + list block) * nat :=
  fun _ n => (default (inr []) (script !! n), S n).

Definition pure_tool (f : pyvalue -> exn + pyvalue) : @capability nat :=
  fun tool_args w => (f tool_args, w).

Definition demo_tools : gmap string (@capability nat) :=
  {[ "search_papers" :=
       pure_tool (fun _ => inr (PList [PStr "1310.7911v2"; PStr "2208.00733v1"]));
     "extract_info" :=
       pure_tool (fun _ => inr (PStr "There's no saved information related to paper X."));
     "broken" := pure_tool (fun _ => inl (Raised "connection refused"));
     "counts" := pure_tool (fun _ => inr (PList [PInt 1; PInt 2]));
     "newest_paper" := pure_tool (fun _ => inr (POther "Paper" "1310.7911v2")) ]}.

(** An interpreter in which an object of another class is printed as a
    class inherits it from [object]: with the name of the class and the
    address of the object, for which the state of the world stands. *)
Definition at_address (w : nat) : object_methods :=
  ObjectMethods
    (fun ty _ => inr ("<" +:+ ty +:+ " object at " +:+ pretty w +:+ ">"))
    (fun ty _ => inr ("<" +:+ ty +:+ " object at " +:+ pretty w +:+ ">")).

(** Two tool calls in one response, as the backend sends them when it
    uses tools in parallel, and the answers that follow. *)
Definition call_search : block :=
  ToolUseBlock "toolu_A" "search_papers" (PDict [(PStr "topic", PStr "computers")]).

Definition call_extract : block :=
  ToolUseBlock "toolu_B" "extract_info" (PDict [(PStr "paper_id", PStr "X")]).

Definition parallel_script : list (exn + list block) :=
  [inr [call_search; call_extract];
   inr [TextBlock "I have the ids."];
   inr [TextBlock "Nothing is saved about paper X."]].

Definition call_unknown : block :=
  ToolUseBlock "toolu_C" "delete_paper" (PDict [(PStr "paper_id", PStr "X")]).

Definition call_broken : block :=
  ToolUseBlock "toolu_D" "broken" (PDict []).

(** Two dicts that are equal in Python ([d1 == d2]), with their keys
    inserted in different orders. *)
Definition dict_ab : pyvalue := PDict [(PStr "a", PInt 1); (PStr "b", PInt 2)].
Definition dict_ba : pyvalue := PDict [(PStr "b", PInt 2); (PStr "a", PInt 1)].

(** A tool call followed by text, answered by another tool call. *)
Definition dangling_script : list (exn + list block) :=
  [inr [call_search; TextBlock "One moment."]; inr [call_extract]].

(** Text and two tool calls in one response. *)
Definition announced_script : list (exn + list block) :=
  [inr [TextBlock "Searching."; call_search; call_extract];
   inr [TextBlock "I have the ids."];
   inr [TextBlock "Nothing is saved about paper X."]].

(** Two tool calls in one response; the answer to the first is never
    iterated over, because the answer to the second replaces it. *)
Definition replaced_script : list (exn + list block) :=
  [inr [call_search; call_extract];
   inr [TextBlock "First the ids,"; TextBlock "then the details."];
   inr [TextBlock "Nothing is saved about paper X."]].

(** A registered tool is called before one that is not. *)
Definition second_unknown_script : list (exn + list block) :=
  [inr [TextBlock "Let me look."; call_search; call_unknown];
   inr [call_extract]].

Definition second_broken_script : list (exn + list block) :=
  [inr [call_search; call_broken]; inr [call_extract]].

(** A value of more digits than [str()] writes. *)
Definition huge_int : pyvalue := PInt int_str_limit.

(** A state of the loop whose current response is [r]. *)
Definition state_at (r : list block) : @pq_state nat :=
  PQState [UserTurn "q"] [] r true [] [[UserMessage "q"]] 1.

(** ** The tool functions [search_papers] and [extract_info]

    Both functions work on files.  What they read from outside is given to
    the model as data: the outcome of opening and parsing a file, the
    listing of the directory [papers], the results that the arXiv client
    yields.  A parsed file is the Python value that [json.load] returns. *)

(** [open(file_path, "r")] followed by [json.load]: the parsed value, one of
    the two exceptions that the functions catch (with its [str]), or any
    other exception. *)
Inductive load_result : Type :=
  | Loaded (papers_info : pyvalue)
  | FileNotFound (msg : string)
  | JSONDecodeError (msg : string)
  | LoadRaises (e : exn).

(** What the tool functions print. *)
Inductive tool_print : Type :=
  | ErrorReading (file_path : string) (msg : string)
  | ResultsSaved (file_path : string).

Definition PAPER_DIR : string := "papers".

Definition starts_with_sep (s : string) : bool :=
  match s with
  | String c _ => Ascii.eqb c "/"
  | EmptyString => false
  end.

Fixpoint ends_with_sep (s : string) : bool :=
  match s with
  | EmptyString => false
  | String c EmptyString => Ascii.eqb c "/"
  | String _ rest => ends_with_sep rest
  end.

(** [os.path.join(a, b)] on a POSIX system. *)
Definition path_join (a b : string) : string :=
  if starts_with_sep b then b
  else if (match a with EmptyString => true | _ => false end) || ends_with_sep a
       then a +:+ b
       else a +:+ "/" +:+ b.

Definition papers_info_path (directory : string) : string :=
  path_join (path_join PAPER_DIR directory) "papers_info.json".

(** [s.replace(" ", "_")]. *)
Fixpoint replace_spaces (s : string) : string :=
  match s with
  | EmptyString => EmptyString
  | String c rest =>
      String (if Ascii.eqb c " " then "_"%char else c) (replace_spaces rest)
  end.

(** The directory of a topic: [topic.lower().replace(" ", "_")]. *)
Definition topic_directory (topic : string) : string :=
  replace_spaces (lower topic).

(** *** Operations on parsed values *)

Definition is_key (key : string) (k : pyvalue) : bool :=
  match k with
  | PStr s => String.eqb s key
  | _ => false
  end.

(** [d[key]] on the items of a dict, for a [str] key. *)
Fixpoint dict_get (key : string) (items : list (pyvalue * pyvalue)) : option pyvalue :=
  match items with
  | [] => None
  | (k, v) :: rest => if is_key key k then Some v else dict_get key rest
  end.

(** [d[key] = value] on the items of a dict: the value of a key that is
    present is replaced where it stands, a new key goes to the end. *)
Fixpoint dict_set (key : string) (value : pyvalue) (items : list (pyvalue * pyvalue))
  : list (pyvalue * pyvalue) :=
  match items with
  | [] => [(PStr key, value)]
  | (k, v) :: rest =>
      if is_key key k then (k, value) :: rest
      else (k, v) :: dict_set key value rest
  end.

Definition is_substring (sub s : string) : bool :=
  match String.index 0 sub s with
  | Some _ => true
  | None => false
  end.

(** [key in o] for a [str] key: a key of a dict, an item of a list or of a
    tuple, a substring of a string; a [TypeError] on a value that is not a
    container. *)
Definition contains (o : pyvalue) (key : string) : exn + bool :=
  match o with
  | PDict items => inr (existsb (fun kv => is_key key kv.1) items)
  | PList items => inr (existsb (is_key key) items)
  | PStr s => inr (is_substring key s)
  | PTuple items => inr (existsb (is_key key) items)
  | PNone | PBool _ | PInt _ | PFloat _ | POther _ _ => inl TypeError
  end.

(** [o[key]] for a [str] key: defined on a dict only ([KeyError] when the
    key is missing); lists and strings take integer indices. *)
Definition get_item (o : pyvalue) (key : string) : exn + pyvalue :=
  match o with
  | PDict items =>
      match dict_get key items with
      | Some v => inr v
      | None => inl (KeyError key)
      end
  | _ => inl TypeError
  end.

(** [o[key] = value] for a [str] key: defined on a dict only. *)
Definition set_item (o : pyvalue) (key : string) (value : pyvalue) : exn + pyvalue :=
  match o with
  | PDict items => inr (PDict (dict_set key value items))
  | _ => inl TypeError
  end.

(** *** [extract_info] *)

(** An entry of [os.listdir(PAPER_DIR)]: not a directory, a directory
    without the file [papers_info.json], or a directory with that file. *)
Inductive dir_item : Type :=
  | NotDir
  | DirWithoutFile
  | DirWithFile (content : load_result).

Definition not_saved (paper_id : string) : string :=
  "There's no saved information related to paper " +:+ paper_id +:+ ".".

(** The loop [for item in os.listdir(PAPER_DIR)], with what it prints. *)
Fixpoint extract_info_loop (paper_id : string) (listing : list (string * dir_item))
  : (exn + string) * list tool_print :=
  match listing with
  | [] => (inr (not_saved paper_id), [])
  | (item, d) :: rest =>
      match d with
      | NotDir | DirWithoutFile => extract_info_loop paper_id rest
      | DirWithFile (FileNotFound msg) | DirWithFile (JSONDecodeError msg) =>
          let '(r, out) := extract_info_loop paper_id rest in
          (r, ErrorReading (papers_info_path item) msg :: out)
      | DirWithFile (LoadRaises e) => (inl e, [])
      | DirWithFile (Loaded papers_info) =>
          match contains papers_info paper_id with
          | inl e => (inl e, [])
          | inr false => extract_info_loop paper_id rest
          | inr true =>
              match get_item papers_info paper_id with
              | inl e => (inl e, [])
              | inr info => (json_dumps info 2, [])
              end
          end
      end
  end.

(** [extract_info(paper_id)]: [os.listdir] may raise, outside any [try]. *)
Definition extract_info (paper_id : string) (listdir : exn + list (string * dir_item))
  : (exn + string) * list tool_print :=
  match listdir with
  | inl e => (inl e, [])
  | inr listing => extract_info_loop paper_id listing
  end.

(** *** [search_papers] *)

(** A result of the arXiv client, with the fields that the function reads:
    [get_short_id()], [title], the names of [authors], [summary],
    [pdf_url] (which may be [None]) and [str(published.date())]. *)
Record paper : Type := Paper {
  short_id : string;
  title : string;
  authors : list string;
  summary : string;
  pdf_url : option string;
  published : string
}.

Definition paper_info (p : paper) : pyvalue :=
  PDict [(PStr "title", PStr (title p));
         (PStr "authors", PList (map PStr (authors p)));
         (PStr "summary", PStr (summary p));
         (PStr "pdf_url", match pdf_url p with Some url => PStr url | None => PNone end);
         (PStr "published", PStr (published p))].

(** The loop [for paper in papers]: the ids so far and the dict so far. *)
Fixpoint add_papers (papers : list paper) (paper_ids : list string) (papers_info : pyvalue)
  : exn + list string * pyvalue :=
  match papers with
  | [] => inr (paper_ids, papers_info)
  | p :: rest =>
      match set_item papers_info (short_id p) (paper_info p) with
      | inl e => inl e
      | inr papers_info' => add_papers rest (paper_ids ++ [short_id p]) papers_info'
      end
  end.

(** What a call that returns has done: the value dumped into the file of
    the topic, the path it prints, the ids it returns. *)
Record search_result : Type := SearchResult {
  written : pyvalue;
  saved_in : string;
  paper_ids : list string
}.

(** [search_papers(topic, max_results)].  [existing] is what reading the
    file of the topic gives, [results] what the client yields, and
    [failure] the exception, if any, with which the client ends instead of
    stopping after the last result.  Nothing is written unless the loop has
    come to its end. *)
Definition search_papers (topic : string) (existing : load_result)
    (results : list paper) (failure : option exn) : exn + search_result :=
  match (match existing with
         | Loaded papers_info => inr papers_info
         | FileNotFound _ | JSONDecodeError _ => inr (PDict [])
         | LoadRaises e => inl e
         end) with
  | inl e => inl e
  | inr papers_info =>
      match add_papers results [] papers_info with
      | inl e => inl e
      | inr (ids, papers_info') =>
          match failure with
          | Some e => inl e
          | None =>
              match json_dumps papers_info' 2 with
              | inl e => inl e
              | inr _ =>
                  inr (SearchResult papers_info'
                         (papers_info_path (topic_directory topic)) ids)
              end
          end
      end
  end.

(** *** Vocabulary for the tool functions *)

(** Entries that [extract_info] passes by when it looks for [paper_id]:
    no directory, no file, a file that is missing or corrupt when it is
    opened, and a dict without this key. *)
Definition passed_by (paper_id : string) (entry : string * dir_item) : bool :=
  match entry.2 with
  | NotDir | DirWithoutFile => true
  | DirWithFile (FileNotFound _) | DirWithFile (JSONDecodeError _) => true
  | DirWithFile (Loaded (PDict items)) =>
      match dict_get paper_id items with
      | Some _ => false
      | None => true
      end
  | DirWithFile (Loaded _) | DirWithFile (LoadRaises _) => false
  end.

(** Entries that hold no parsed file at all. *)
Definition unreadable (entry : string * dir_item) : bool :=
  match entry.2 with
  | NotDir | DirWithoutFile => true
  | DirWithFile (FileNotFound _) | DirWithFile (JSONDecodeError _) => true
  | DirWithFile (Loaded _) | DirWithFile (LoadRaises _) => false
  end.

(** The last result with a given id, which is the one whose information
    stays in the dict. *)
Fixpoint last_with_id (id : string) (papers : list paper) : option paper :=
  match papers with
  | [] => None
  | p :: rest =>
      match last_with_id id rest with
      | Some q => Some q
      | None => if String.eqb (short_id p) id then Some p else None
      end
  end.

(** The dict that [search_papers] starts from, when it starts from one: the
    parsed file if it is a dict, the empty dict if the file is missing or
    corrupt. *)
Definition stored_dict (existing : load_result) : option (list (pyvalue * pyvalue)) :=
  match existing with
  | Loaded (PDict items) => Some items
  | FileNotFound _ | JSONDecodeError _ => Some []
  | Loaded _ | LoadRaises _ => None
  end.

(** *** Vocabulary for the conversation *)

Section Conversation.

Context {World : Type}.

Definition final_state (o : @outcome World) : pq_state :=
  match o with
  | Returns st | Raises _ st | OutOfFuel st => st
  end.

Definition has_raised (o : @outcome World) : bool :=
  match o with
  | Raises _ _ => true
  | Returns _ | OutOfFuel _ => false
  end.

(** Every assistant turn of the conversation refers to a list that
    exists. *)
Definition refs_valid (st : @pq_state World) : Prop :=
  forall l, AssistantTurn l ∈ messages st -> l < length (lists st).

End Conversation.

(** An answered tool call: the assistant turn and the tool-result turn of
    one entry that follows it. *)
Definition answered_call (call : loc * tool_result) : list turn :=
  [AssistantTurn call.1; ToolResultTurn [call.2]].

Fixpoint all_space (s : string) : bool :=
  match s with
  | EmptyString => true
  | String c rest => is_space c && all_space rest
  end.

Fixpoint no_space (s : string) : bool :=
  match s with
  | EmptyString => true
  | String c rest => negb (is_space c) && no_space rest
  end.

Definition is_assistant_turn (t : turn) : bool :=
  match t with AssistantTurn _ => true | _ => false end.

(** The number of lines [Calling tool ...] among what was printed, and the
    number of assistant turns of a conversation. *)
Definition tool_calls_printed (out : list event) : nat :=
  length (List.filter is_calling_tool out).

Definition assistant_turns (turns : list turn) : nat :=
  length (List.filter is_assistant_turn turns).

(** A backend that asks for the same tool at every call. *)
Definition insistent (b : block) : list message -> nat -> (exn + list block) * nat :=
  fun _ n => (inr [b], S n).

Definition paper_a : paper :=
  Paper "1310.7911v2" "Compact manifolds with computable boundaries"
        ["Zvonko Iljazovic"] "We investigate conditions." 
        (Some "http://arxiv.org/pdf/1310.7911v2") "2013-10-29".

Definition paper_b : paper :=
  Paper "2208.00733v1" "The Rise of Quantum Internet Computing"
        ["Seng W. Loke"] "This article highlights quantum Internet computing."
        None "2022-08-01".

(** A listing of [papers]: a stray file, a directory without a file, a
    directory whose file is corrupt, and the topic [computers]. *)
Definition stored_computers : list (pyvalue * pyvalue) :=
  [(PStr "1310.7911v2", paper_info paper_a)].

Definition unreadable_entries : list (string * dir_item) :=
  [("notes.txt", NotDir);
   ("new_topic", DirWithoutFile);
   ("broken_topic", DirWithFile (JSONDecodeError "Expecting value: line 1 column 1 (char 0)"))].

Definition demo_listing : list (string * dir_item) :=
  unreadable_entries ++ [("computers", DirWithFile (Loaded (PDict stored_computers)))].

Definition one_tool_script : list (exn + list block) :=
  [inr [TextBlock "Searching."; call_search]; inr [TextBlock "Found two."]].

(** ** Properties of the normalization *)

(** Induction on Python values, with the induction hypothesis for every
    item of a list or tuple and for every key and value of a dict. *)
Lemma pyvalue_ind_nested (P : pyvalue -> Prop) :
  P PNone ->
  (forall b, P (PBool b)) ->
  (forall z, P (PInt z)) ->
  (forall x, P (PFloat x)) ->
  (forall s, P (PStr s)) ->
  (forall items, Forall P items -> P (PList items)) ->
  (forall items, Forall P items -> P (PTuple items)) ->
  (forall items, Forall (fun kv => P kv.1 /\ P kv.2) items -> P (PDict items)) ->
  (forall ty obj, P (POther ty obj)) ->
  forall o, P o.
Proof.
  intros HNone HBool HInt HFloat HStr HList HTuple HDict HOther.
  fix IH 1. intros [ |b|z|x|s|items|items|items|ty obj].
  - exact HNone.
  - apply HBool.
  - apply HInt.
  - apply HFloat.
  - apply HStr.
  - apply HList. induction items as [|x rest IHrest]; constructor.
    + apply IH.
    + exact IHrest.
  - apply HTuple. induction items as [|x rest IHrest]; constructor.
    + apply IH.
    + exact IHrest.
  - apply HDict. induction items as [|[k v] rest IHrest]; constructor.
    + split; apply IH.
    + exact IHrest.
  - apply HOther.
Qed.

Lemma int_str_limit_power : int_str_limit = (10 ^ 4300)%Z.
Proof. vm_compute. reflexivity. Qed.

Lemma int_str_within z : within_digits z = true -> int_str z = inr (pretty z).
Proof. intros H. unfold int_str. by rewrite H. Qed.

Lemma int_str_beyond z : within_digits z = false -> int_str z = inl ValueError.
Proof. intros H. unfold int_str. by rewrite H. Qed.

Lemma chunks_defined {A : Type} (encode : A -> exn + string) (items : list A) :
  Forall (fun item => exists s, encode item = inr s) items ->
  exists ss,
    chunks encode items = inr ss
    /\ Forall2 (fun item s => encode item = inr s) items ss.
Proof.
  induction 1 as [|item rest [s Hs] _ (ss & Hss & Hall)].
  - exists []. split; [done|constructor].
  - exists (s :: ss). cbn. rewrite Hs, Hss. split; [done|by constructor].
Qed.

Lemma chunks_inr {A : Type} (encode : A -> exn + string) (items : list A) ss :
  chunks encode items = inr ss ->
  Forall2 (fun item s => encode item = inr s) items ss.
Proof.
  revert ss. induction items as [|item rest IH]; cbn; intros ss Hss.
  - injection Hss as <-. constructor.
  - destruct (encode item) as [e|s] eqn:Hs; [done|].
    destruct (chunks encode rest) as [e|ss'] eqn:Hrest; [done|].
    injection Hss as <-. constructor; [done|]. by apply IH.
Qed.

(** Two encoders that agree on the items give the same chunks. *)
Lemma chunks_ext {A : Type} (encode1 encode2 : A -> exn + string) (items : list A) :
  Forall (fun item => encode1 item = encode2 item) items ->
  chunks encode1 items = chunks encode2 items.
Proof.
  induction 1 as [|item rest Hitem _ IH]; cbn; [done|]. by rewrite Hitem, IH.
Qed.

Lemma key_ok_json_key k : key_ok k = true -> exists s, json_key k = inr s.
Proof.
  destruct k as [ |[|]|z|x| | | | | ]; cbn; try done; eauto.
  intros Hz. rewrite (int_str_within z Hz). eauto.
Qed.

(** [json.dumps] is defined on every serializable value, at any nesting
    level. *)
Lemma iterencode_serializable indent o : forall level,
  serializable o = true -> exists s, iterencode indent level o = inr s.
Proof.
  induction o as [ |b|z|x|s|items IH|items IH|items IH|ty obj] using pyvalue_ind_nested;
    intros level Hser; cbn in Hser |- *; try done; eauto.
  - destruct b; eauto.
  - rewrite (int_str_within z Hser). eauto.
  - destruct items as [|x rest]; [eauto|].
    destruct (chunks_defined (iterencode indent (S level)) (x :: rest)) as (ss & -> & _);
      [|eauto].
    rewrite forallb_forall in Hser. rewrite Forall_forall in IH |- *.
    intros y Hy. apply IH; [done|]. apply Hser. by apply list_elem_of_In.
  - destruct items as [|x rest]; [eauto|].
    destruct (chunks_defined (iterencode indent (S level)) (x :: rest)) as (ss & -> & _);
      [|eauto].
    rewrite forallb_forall in Hser. rewrite Forall_forall in IH |- *.
    intros y Hy. apply IH; [done|]. apply Hser. by apply list_elem_of_In.
  - destruct items as [|kv rest]; [eauto|].
    match goal with |- context [chunks ?f (kv :: rest)] =>
      destruct (chunks_defined f (kv :: rest)) as (ss & -> & _) end; [|eauto].
    rewrite forallb_forall in Hser. rewrite Forall_forall in IH |- *.
    intros [k v] Hkv. specialize (IH _ Hkv) as [_ IHv]. cbn in IHv.
    assert (Hin : In (k, v) (kv :: rest)) by (by apply list_elem_of_In).
    apply Hser in Hin. apply andb_prop in Hin as [Hk Hv].
    destruct (key_ok_json_key k Hk) as [ks ->].
    destruct (IHv (S level) Hv) as [vs ->]. eauto.
Qed.

(** A dict that is serialized lists its entries in the order in which it
    holds them. *)
Lemma json_dumps_dict_entries indent kv rest text :
  json_dumps (PDict (kv :: rest)) indent = inr text ->
  exists entries,
    Forall2 (dict_entry indent 1) (kv :: rest) entries
    /\ text = "{" +:+ newline_indent indent 1
                  +:+ String.concat ("," +:+ newline_indent indent 1) entries
                  +:+ newline_indent indent 0 +:+ "}".
Proof.
  unfold json_dumps. cbn [iterencode].
  match goal with |- context [chunks ?f (kv :: rest)] =>
    destruct (chunks f (kv :: rest)) as [e|ss] eqn:Hss end; [done|].
  intros Htext. injection Htext as <-. exists ss. split; [|done].
  eapply Forall2_impl; [exact (chunks_inr _ _ _ Hss)|].
  intros [k v] chunk Hchunk. cbn in Hchunk. unfold dict_entry. cbn.
  destruct (json_key k) as [e|ks]; [done|].
  destruct (iterencode indent 1 v) as [e|vs]; [done|].
  injection Hchunk as <-. eauto.
Qed.

Lemma json_dumps_dict_in_order indent kv rest :
  serializable (PDict (kv :: rest)) = true ->
  exists entries,
    Forall2 (dict_entry indent 1) (kv :: rest) entries
    /\ json_dumps (PDict (kv :: rest)) indent
       = inr ("{" +:+ newline_indent indent 1
                  +:+ String.concat ("," +:+ newline_indent indent 1) entries
                  +:+ newline_indent indent 0 +:+ "}").
Proof.
  intros Hser.
  destruct (iterencode_serializable indent (PDict (kv :: rest)) 0 Hser) as [text Htext].
  destruct (json_dumps_dict_entries indent kv rest text Htext) as (entries & Hall & ->).
  by exists entries.
Qed.

Lemma str_items_strings ss : str_items (map PStr ss) = inr ss.
Proof. induction ss as [|s ss IH]; cbn; [done|by rewrite IH]. Qed.

Lemma str_items_defined items :
  forallb is_str items = true -> exists ss, str_items items = inr ss.
Proof.
  induction items as [|[ | | | |s| | | | ] rest IH]; cbn; try done; [eauto|].
  intros Hrest. destruct (IH Hrest) as [ss ->]. eauto.
Qed.

(** The [repr] of a value that is built-in throughout does not depend on
    the methods of other classes. *)
Lemma py_repr_builtin m1 m2 o : builtin o = true -> py_repr m1 o = py_repr m2 o.
Proof.
  induction o as [ |b|z|x|s|items IH|items IH|items IH|ty obj] using pyvalue_ind_nested;
    intros Hb; cbn in Hb |- *; try done.
  - rewrite (chunks_ext (py_repr m1) (py_repr m2) items); [done|].
    rewrite forallb_forall in Hb. rewrite Forall_forall in IH |- *.
    intros y Hy. apply IH; [done|]. apply Hb. by apply list_elem_of_In.
  - rewrite (chunks_ext (py_repr m1) (py_repr m2) items); [done|].
    rewrite forallb_forall in Hb. rewrite Forall_forall in IH |- *.
    intros y Hy. apply IH; [done|]. apply Hb. by apply list_elem_of_In.
  - match goal with |- match chunks ?f1 items with _ => _ end
                       = match chunks ?f2 items with _ => _ end =>
      rewrite (chunks_ext f1 f2 items) end; [done|].
    rewrite forallb_forall in Hb. rewrite Forall_forall in IH |- *.
    intros [k v] Hkv. destruct (IH _ Hkv) as [IHk IHv]. cbn in IHk, IHv.
    assert (Hin : In (k, v) items) by (by apply list_elem_of_In).
    apply Hb in Hin. apply andb_prop in Hin as [Hk Hv].
    by rewrite (IHk Hk), (IHv Hv).
Qed.

(** A built-in value without an int of too many digits has a [repr]. *)
Lemma py_repr_defined m o :
  builtin o = true -> digits_ok o = true -> exists s, py_repr m o = inr s.
Proof.
  induction o as [ |b|z|x|s|items IH|items IH|items IH|ty obj] using pyvalue_ind_nested;
    intros Hb Hd; cbn in Hb, Hd |- *; try done; eauto.
  - destruct b; eauto.
  - rewrite (int_str_within z Hd). eauto.
  - destruct (chunks_defined (py_repr m) items) as (ss & -> & _); [|eauto].
    rewrite forallb_forall in Hb, Hd. rewrite Forall_forall in IH |- *.
    intros y Hy. apply IH; [done|apply Hb|apply Hd]; by apply list_elem_of_In.
  - destruct (chunks_defined (py_repr m) items) as (ss & -> & _).
    + rewrite forallb_forall in Hb, Hd. rewrite Forall_forall in IH |- *.
      intros y Hy. apply IH; [done|apply Hb|apply Hd]; by apply list_elem_of_In.
    + destruct ss as [|s [|s' ss]]; eauto.
  - match goal with |- context [chunks ?f items] =>
      destruct (chunks_defined f items) as (ss & -> & _) end; [|eauto].
    rewrite forallb_forall in Hb, Hd. rewrite Forall_forall in IH |- *.
    intros [k v] Hkv. destruct (IH _ Hkv) as [IHk IHv]. cbn in IHk, IHv.
    assert (Hin : In (k, v) items) by (by apply list_elem_of_In).
    pose proof (Hb _ Hin) as Hbkv. pose proof (Hd _ Hin) as Hdkv.
    apply andb_prop in Hbkv as [Hbk Hbv]. apply andb_prop in Hdkv as [Hdk Hdv].
    destruct (IHk Hbk Hdk) as [ks ->]. destruct (IHv Hbv Hdv) as [vs ->]. eauto.
Qed.

(** *** When the normalization raises *)

Lemma chunks_raises {A : Type} (P : exn -> Prop) (encode : A -> exn + string)
    (items : list A) :
  Forall (fun item => (exists s, encode item = inr s)
                      \/ (exists e, encode item = inl e /\ P e)) items ->
  Exists (fun item => exists e, encode item = inl e /\ P e) items ->
  exists e, chunks encode items = inl e /\ P e.
Proof.
  induction 1 as [|item rest Hitem _ IH]; intros Hex; [by inversion Hex|].
  cbn. destruct Hitem as [[s Hs]|(e & He & HP)]; [|rewrite He; eauto].
  rewrite Hs. inversion Hex as [? ? (e & He & _)|? ? Hlater]; subst; [congruence|].
  destruct (IH Hlater) as (e & -> & HP). eauto.
Qed.

Lemma forallb_false_Exists {A : Type} (f : A -> bool) (items : list A) :
  forallb f items = false -> Exists (fun item => f item = false) items.
Proof.
  induction items as [|item rest IH]; cbn; [done|].
  destruct (f item) eqn:Hitem; cbn; intros Hrest.
  - apply Exists_cons_tl. by apply IH.
  - by apply Exists_cons_hd.
Qed.

Lemma json_key_raises k :
  key_ok k = false -> exists e, json_key k = inl e /\ json_error e.
Proof.
  unfold json_error.
  destruct k as [ |[|]|z|x| | | | | ]; cbn; try done; eauto.
  intros Hz. rewrite (int_str_beyond z Hz). eauto.
Qed.

(** [json.dumps] raises a [TypeError] or a [ValueError] on every value
    that is not serializable. *)
Lemma iterencode_not_serializable indent o : forall level,
  serializable o = false -> exists e, iterencode indent level o = inl e /\ json_error e.
Proof.
  assert (Hitems : forall level items,
            Forall (fun o => forall level, serializable o = false ->
                      exists e, iterencode indent level o = inl e /\ json_error e) items ->
            forallb serializable items = false ->
            exists e, chunks (iterencode indent (S level)) items = inl e /\ json_error e).
  { intros level items IH Hser. apply chunks_raises.
    - rewrite Forall_forall in IH |- *. intros y Hy.
      destruct (serializable y) eqn:Hy'.
      + left. by apply iterencode_serializable.
      + right. by apply IH.
    - apply forallb_false_Exists in Hser.
      rewrite Forall_forall in IH. rewrite Exists_exists in Hser |- *.
      destruct Hser as (y & Hin & Hy). exists y. split; [done|]. by apply IH. }
  induction o as [ |b|z|x|s|items IH|items IH|items IH|ty obj] using pyvalue_ind_nested;
    intros level Hser; cbn in Hser |- *; try done.
  - rewrite (int_str_beyond z Hser). unfold json_error. eauto.
  - destruct items as [|x rest]; [done|].
    destruct (Hitems level (x :: rest) IH Hser) as (e & -> & He). eauto.
  - destruct items as [|x rest]; [done|].
    destruct (Hitems level (x :: rest) IH Hser) as (e & -> & He). eauto.
  - destruct items as [|kv rest]; [done|].
    match goal with |- context [chunks ?f (kv :: rest)] =>
      destruct (chunks_raises json_error f (kv :: rest)) as (e & -> & He) end; [..|eauto].
    + rewrite Forall_forall in IH |- *. intros [k v] Hkv.
      destruct (IH _ Hkv) as [_ IHv]. cbn in IHv.
      destruct (key_ok k) eqn:Hk.
      2:{ right. destruct (json_key_raises k Hk) as (e & -> & He). eauto. }
      destruct (key_ok_json_key k Hk) as [ks ->].
      destruct (serializable v) eqn:Hv.
      * left. destruct (iterencode_serializable indent v (S level) Hv) as [vs ->]. eauto.
      * right. destruct (IHv (S level) eq_refl) as (e & -> & He). eauto.
    + apply forallb_false_Exists in Hser.
      rewrite Forall_forall in IH. rewrite Exists_exists in Hser |- *.
      destruct Hser as ([k v] & Hin & Hkv). exists (k, v). split; [done|].
      destruct (IH (k, v) Hin) as [_ IHv]. cbn in IHv.
      destruct (key_ok k) eqn:Hk.
      2:{ destruct (json_key_raises k Hk) as (e & -> & He). eauto. }
      destruct (key_ok_json_key k Hk) as [ks ->].
      cbn in Hkv. destruct (IHv (S level) Hkv) as (e & -> & He). eauto.
  - unfold json_error. eauto.
Qed.

Lemma str_items_raises items :
  forallb is_str items = false -> str_items items = inl TypeError.
Proof.
  induction items as [|[ | | | |s| | | | ] rest IH]; cbn; try done.
  intros Hrest. by rewrite (IH Hrest).
Qed.

(** The normalization gives a string on [None], on lists of strings, on
    serializable dicts and on the built-in values that have a [repr]. *)
Lemma normalize_defined m raw :
  normalizable raw = true -> exists s, normalize m raw = inr s.
Proof.
  destruct raw as [ |[|]|z|x|s|items|items|items|ty obj];
    cbn [normalizable normalize py_str]; intros Hok; eauto; try done;
    try (apply andb_prop in Hok as [Hb Hd]; by apply py_repr_defined).
  - unfold str_join. destruct (str_items_defined items Hok) as [ss ->]. eauto.
  - by apply iterencode_serializable.
Qed.

(** The normalization of a self-contained value does not depend on the
    methods of other classes. *)
Lemma normalize_self_contained m1 m2 raw :
  self_contained raw = true -> normalize m1 raw = normalize m2 raw.
Proof.
  destruct raw as [ |b|z|x|s|items|items|items|ty obj];
    cbn [self_contained normalize py_str]; intros Hself; try done.
  by apply py_repr_builtin.
Qed.

(** ** Properties of the loop *)

Section Properties.

Context {World : Type}.
Variable methods : World -> object_methods.
Variable mapping_tool_function : gmap string (@capability World).
Variable messages_create : list message -> World -> (exn + list block) * World.

Local Abbreviation execute_tool := (execute_tool methods mapping_tool_function).
Local Abbreviation for_content :=
  (for_content methods mapping_tool_function messages_create).
Local Abbreviation while_process_query :=
  (while_process_query methods mapping_tool_function messages_create).
Local Abbreviation process_query :=
  (process_query methods mapping_tool_function messages_create).
Local Abbreviation chat_while :=
  (chat_while methods mapping_tool_function messages_create).

Ltac run_block :=
  cbn [for_content];
  unfold bind, print, list_append, messages_append, get_response, set_response,
    set_process_query, call_execute_tool, call_messages_create, ret;
  cbn [messages lists response process_query_flag stdout requests world].

(** *** [execute_tool] *)

Lemma execute_tool_unknown tool_name tool_args w :
  mapping_tool_function !! tool_name = None ->
  execute_tool tool_name tool_args w = (inl (KeyError tool_name), w).
Proof.
  intros H. unfold execute_tool. unfold capability in *. by rewrite H.
Qed.

Lemma execute_tool_known tool_name f tool_args w :
  mapping_tool_function !! tool_name = Some f ->
  execute_tool tool_name tool_args w
  = match f tool_args w with
    | (inl e, w') => (inl e, w')
    | (inr result, w') => (normalize (methods w') result, w')
    end.
Proof.
  intros H. unfold execute_tool. unfold capability in *. by rewrite H.
Qed.

(** *** One step of the loop body *)

Lemma for_content_nil ac st : for_content ac [] st = (inr tt, st).
Proof. reflexivity. Qed.

Lemma for_content_text ac text rest st :
  for_content ac (TextBlock text :: rest) st
  = for_content ac rest (after_text ac text st).
Proof.
  run_block. unfold after_text.
  destruct (Nat.eqb (length (response st)) 1); reflexivity.
Qed.

Lemma for_content_other ac ty rest st :
  for_content ac (OtherBlock ty :: rest) st = for_content ac rest st.
Proof. reflexivity. Qed.

Lemma for_content_tool_use ac tool_id tool_name tool_args rest st :
  for_content ac (ToolUseBlock tool_id tool_name tool_args :: rest) st
  = match execute_tool tool_name tool_args (world st) with
    | (inl e, w) =>
        (inl e, after_call ac (ToolUseBlock tool_id tool_name tool_args)
                  tool_name tool_args w st)
    | (inr result, w) =>
        let st2 := after_result tool_id result
                     (after_call ac (ToolUseBlock tool_id tool_name tool_args)
                        tool_name tool_args w st) in
        match messages_create (snapshot st2) w with
        | (inl e, w') => (inl e, after_request w' st2)
        | (inr r, w') => for_content ac rest (after_response r (after_request w' st2))
        end
    end.
Proof.
  run_block.
  destruct (execute_tool tool_name tool_args (world st)) as [[e|result] w]; [reflexivity|].
  cbn.
  match goal with |- context [messages_create ?req w] =>
    destruct (messages_create req w) as [[e|r] w'] end; [reflexivity|].
  cbn. destruct r as [|[text| |] [|]]; reflexivity.
Qed.

Lemma for_content_app ac pre post st :
  for_content ac (pre ++ post) st
  = match for_content ac pre st with
    | (inl e, st') => (inl e, st')
    | (inr _, st') => for_content ac post st'
    end.
Proof.
  revert st. induction pre as [|b pre IH]; intros st; [reflexivity|].
  destruct b as [text|tool_id tool_name tool_args|ty]; cbn [app].
  - by rewrite !for_content_text.
  - rewrite !for_content_tool_use.
    destruct (execute_tool tool_name tool_args (world st)) as [[e|result] w]; [done|].
    cbv zeta.
    match goal with |- context [messages_create ?req w] =>
      destruct (messages_create req w) as [[e|r] w'] end; [done|].
    apply IH.
  - rewrite !for_content_other. apply IH.
Qed.

(** Blocks other than tool calls never raise, never touch the conversation
    and never call the backend. *)
Lemma for_content_no_tool_use ac blocks : forall st,
  forallb (fun b => negb (is_tool_use b)) blocks = true ->
  exists st',
    for_content ac blocks st = (inr tt, st')
    /\ messages st' = messages st
    /\ response st' = response st
    /\ requests st' = requests st
    /\ world st' = world st
    /\ stdout st' = stdout st ++ block_events blocks
    /\ process_query_flag st'
       = (if (Nat.eqb (length (response st)) 1 && existsb is_text blocks)%bool
          then false else process_query_flag st).
Proof.
  induction blocks as [|b rest IH]; intros st Hno.
  - exists st. rewrite andb_false_r, app_nil_r. done.
  - cbn in Hno. apply andb_true_iff in Hno as [Hb Hrest].
    destruct b as [text|tool_id tool_name tool_args|ty]; [|done|].
    + rewrite for_content_text.
      destruct (IH (after_text ac text st) Hrest)
        as (st' & Hrun & Hm & Hr & Hq & Hw & Hout & Hflag).
      exists st'. cbn in *. repeat split; try done.
      * by rewrite Hout, <- app_assoc.
      * rewrite Hflag. by destruct (Nat.eqb (length (response st)) 1), (existsb is_text rest).
    + rewrite for_content_other. destruct (IH st Hrest) as (st' & Hrun & H).
      exists st'. done.
Qed.

Lemma messages_after_response r (st : @pq_state World) :
  messages (after_response r st) = messages st.
Proof. by destruct r as [|[text| |] [|]]. Qed.

Lemma requests_after_response r (st : @pq_state World) :
  requests (after_response r st) = requests st.
Proof. by destruct r as [|[text| |] [|]]. Qed.

Lemma lists_after_response r (st : @pq_state World) :
  lists (after_response r st) = lists st.
Proof. by destruct r as [|[text| |] [|]]. Qed.

Lemma world_after_response r (st : @pq_state World) :
  world (after_response r st) = world st.
Proof. by destruct r as [|[text| |] [|]]. Qed.

Lemma response_after_response r (st : @pq_state World) :
  response (after_response r st) = r.
Proof. by destruct r as [|[text| |] [|]]. Qed.

(** *** The conversation only grows at its end, the shared list apart *)

Lemma grows_refl ac (st : @pq_state World) : grows ac st st.
Proof.
  repeat split; [done|]. intros bs Hbs. exists []. by rewrite app_nil_r.
Qed.

Lemma grows_trans ac (st1 st2 st3 : @pq_state World) :
  grows ac st1 st2 -> grows ac st2 st3 -> grows ac st1 st3.
Proof.
  intros (Hm & Hlen & Hother & Hac) (Hm' & Hlen' & Hother' & Hac').
  repeat split.
  - by etrans.
  - congruence.
  - intros l Hl. rewrite Hother', Hother; done.
  - intros bs Hbs. destruct (Hac bs Hbs) as [more Hmore].
    destruct (Hac' _ Hmore) as [more' Hmore'].
    exists (more ++ more'). by rewrite app_assoc.
Qed.

Lemma grows_append ac b (st st' : @pq_state World) :
  messages st `prefix_of` messages st' ->
  lists st' = alter (fun bs => bs ++ [b]) ac (lists st) ->
  grows ac st st'.
Proof.
  intros Hm Hlists. repeat split; [done|..]; rewrite Hlists.
  - apply length_alter.
  - intros l Hl. by apply list_lookup_alter_ne.
  - intros bs Hbs. exists [b]. unfold loc in *. by rewrite list_lookup_alter_eq, Hbs.
Qed.

Lemma grows_same_lists ac (st st' : @pq_state World) :
  messages st `prefix_of` messages st' -> lists st' = lists st -> grows ac st st'.
Proof.
  intros Hm Hlists. repeat split; [done|..]; rewrite Hlists; try done.
  intros bs Hbs. exists []. by rewrite app_nil_r.
Qed.

(** Whatever the outcome of a pass, [messages] has only been appended to,
    and the one list that has changed is the [assistant_content] of the
    pass, to which the assistant turns of the pass refer. *)
Lemma for_content_grows ac blocks : forall st r st',
  for_content ac blocks st = (r, st') -> grows ac st st'.
Proof.
  induction blocks as [|b rest IH]; intros st r st' Hrun.
  - rewrite for_content_nil in Hrun. injection Hrun as _ <-. apply grows_refl.
  - destruct b as [text|tool_id tool_name tool_args|ty].
    + rewrite for_content_text in Hrun.
      eapply grows_trans; [|exact (IH _ _ _ Hrun)].
      by apply (grows_append ac (TextBlock text)).
    + rewrite for_content_tool_use in Hrun.
      destruct (execute_tool tool_name tool_args (world st)) as [[e|result] w].
      { injection Hrun as _ <-.
        apply (grows_append ac (ToolUseBlock tool_id tool_name tool_args)); [|done].
        by apply prefix_app_r. }
      set (st1 := after_call _ _ _ _ _ _) in Hrun. cbv zeta in Hrun.
      assert (Hcall : grows ac st st1).
      { apply (grows_append ac (ToolUseBlock tool_id tool_name tool_args)); [|done].
        by apply prefix_app_r. }
      assert (Hresult : forall w', grows ac st1 (after_request w' (after_result tool_id result st1))).
      { intros w'. apply grows_same_lists; [|done]. by apply prefix_app_r. }
      destruct (messages_create (snapshot (after_result tool_id result st1)) w)
        as [[e|resp] w'].
      { injection Hrun as _ <-. exact (grows_trans _ _ _ _ Hcall (Hresult w')). }
      eapply grows_trans; [|exact (IH _ _ _ Hrun)].
      eapply grows_trans; [exact Hcall|].
      eapply grows_trans; [exact (Hresult w')|].
      apply grows_same_lists.
      * by rewrite messages_after_response.
      * by rewrite lists_after_response.
    + rewrite for_content_other in Hrun. exact (IH _ _ _ Hrun).
Qed.

(** *** The [while] loop *)

Lemma while_returns fuel st :
  process_query_flag st = false -> while_process_query fuel st = Returns st.
Proof. intros H. destruct fuel; cbn; by rewrite H. Qed.

Lemma while_iterates fuel st :
  process_query_flag st = true ->
  while_process_query (S fuel) st
  = match for_content (length (lists st)) (response st) (after_new_list st) with
    | (inl e, st') => Raises e st'
    | (inr _, st') => while_process_query fuel st'
    end.
Proof. intros H. cbn [while_process_query]. by rewrite H. Qed.

Lemma while_out_of_fuel k : forall st0 st,
  while_process_query k st0 = OutOfFuel st ->
  process_query_flag st = true
  /\ forall fuel, while_process_query (k + fuel) st0 = while_process_query fuel st.
Proof.
  induction k as [|k IH]; intros st0 st Hrun.
  - cbn in Hrun. destruct (process_query_flag st0) eqn:Hflag; [|done].
    injection Hrun as <-. done.
  - destruct (process_query_flag st0) eqn:Hflag; [|by rewrite while_returns in Hrun].
    rewrite while_iterates in Hrun by done.
    destruct (for_content (length (lists st0)) (response st0) (after_new_list st0))
      as [[e|[]] st1] eqn:Hpass; [done|].
    destruct (IH _ _ Hrun) as [Hflag' Hlater]. split; [done|].
    intros fuel. change (S k + fuel) with (S (k + fuel)).
    rewrite while_iterates by done. by rewrite Hpass.
Qed.

Lemma process_query_first_call fuel query w :
  process_query fuel query w
  = match messages_create [UserMessage query] w with
    | (inl e, w') => Raises e (PQState [UserTurn query] [] [] true [] [[UserMessage query]] w')
    | (inr r, w') =>
        while_process_query fuel
          (PQState [UserTurn query] [] r true [] [[UserMessage query]] w')
    end.
Proof.
  unfold process_query, bind, call_messages_create, set_response,
    set_process_query, initial_state, snapshot.
  cbn. by destruct (messages_create [UserMessage query] w) as [[e|r] w'].
Qed.

(** The loop of [process_query] comes to its first iteration with the
    first response, when the backend gives one. *)
Lemma process_query_starts query w r w' :
  messages_create [UserMessage query] w = (inr r, w') ->
  process_query 0 query w
  = OutOfFuel (PQState [UserTurn query] [] r true [] [[UserMessage query]] w').
Proof. intros Hcreate. by rewrite process_query_first_call, Hcreate. Qed.

(** [process_query k query w = OutOfFuel st] says that the loop of
    [process_query] has made [k] iterations and is about to make another
    one, over the response of [st]. *)
Lemma process_query_out_of_fuel k query w st :
  process_query k query w = OutOfFuel st ->
  process_query_flag st = true
  /\ forall fuel, process_query (k + fuel) query w = while_process_query fuel st.
Proof.
  rewrite process_query_first_call. intros Hrun.
  destruct (messages_create [UserMessage query] w) as [[e|r] w'] eqn:Hcreate; [done|].
  destruct (while_out_of_fuel _ _ _ Hrun) as [Hflag Hlater]. split; [done|].
  intros fuel. by rewrite process_query_first_call, Hcreate.
Qed.

Lemma process_query_next_pass k query w st fuel :
  process_query k query w = OutOfFuel st ->
  process_query (S k + fuel) query w
  = match for_content (length (lists st)) (response st) (after_new_list st) with
    | (inl e, st') => Raises e st'
    | (inr _, st') => while_process_query fuel st'
    end.
Proof.
  intros Hrun. destruct (process_query_out_of_fuel _ _ _ _ Hrun) as [Hflag Hlater].
  replace (S k + fuel) with (k + S fuel) by lia.
  rewrite Hlater. by apply while_iterates.
Qed.

Lemma process_query_one_more k query w st :
  process_query k query w = OutOfFuel st ->
  match for_content (length (lists st)) (response st) (after_new_list st) with
  | (inl e, st') => process_query (S k) query w = Raises e st'
  | (inr _, st') =>
      final_state (process_query (S k) query w) = st'
      /\ has_raised (process_query (S k) query w) = false
  end.
Proof.
  intros Hrun. pose proof (process_query_next_pass _ _ _ _ 0 Hrun) as Hnext.
  rewrite Nat.add_0_r in Hnext. rewrite Hnext.
  destruct (for_content (length (lists st)) (response st) (after_new_list st))
    as [[e|[]] st']; [done|].
  cbn. by destruct (process_query_flag st').
Qed.

(** *** The rounds of a pass *)

Lemma kept_snoc before b :
  kept (before ++ [b])
  = kept before ++ (if (is_text b || is_tool_use b)%bool then [b] else []).
Proof.
  unfold kept. rewrite List.filter_app. cbn.
  by destruct (is_text b || is_tool_use b)%bool.
Qed.

Lemma stdout_after_response r (st : @pq_state World) :
  stdout (after_response r st) = stdout st ++ final_text r.
Proof. destruct r as [|[text| |] [|]]; cbn; by rewrite ?app_nil_r. Qed.

Lemma tool_calls_ids before blocks :
  map call_id (tool_calls before blocks) = tool_use_ids blocks.
Proof.
  revert before. induction blocks as [|b rest IH]; intros before; [done|].
  cbn [tool_calls]. rewrite map_app, IH. by destruct b.
Qed.

(** A pass that raises nothing consists of one round for every tool call
    of the blocks, in block order. *)
Lemma for_content_rounds ac blocks : forall before st st',
  lists st !! ac = Some (kept before) ->
  for_content ac blocks st = (inr tt, st') ->
  exists rounds,
    map round_call rounds = tool_calls before blocks
    /\ in_turn methods mapping_tool_function messages_create (world st) rounds
    /\ world st' = world_after (world st) rounds
    /\ messages st' = messages st ++ flat_map (round_turns ac) rounds
    /\ requests st' = requests st ++ map round_request rounds
    /\ Forall ends_with_round rounds
    /\ stdout st' = stdout st ++ pass_events blocks (map round_answer rounds)
    /\ response st' = response_after (response st) rounds.
Proof.
  induction blocks as [|b rest IH]; intros before st st' Hlist Hrun.
  - rewrite for_content_nil in Hrun. injection Hrun as <-.
    exists []. cbn. rewrite !app_nil_r. repeat split; done || constructor.
  - destruct b as [text|tool_id tool_name tool_args|ty].
    + rewrite for_content_text in Hrun.
      assert (Hlist' : lists (after_text ac text st) !! ac
                       = Some (kept (before ++ [TextBlock text]))).
      { cbn [lists after_text]. rewrite kept_snoc. cbn.
        unfold loc in *. by rewrite list_lookup_alter_eq, Hlist. }
      destruct (IH _ _ _ Hlist' Hrun)
        as (rounds & Hcalls & Hturn & Hw & Hm & Hq & Hends & Hout & Hresp).
      exists rounds. cbn in Hturn, Hw, Hm, Hq, Hout, Hresp |- *.
      repeat split; try done. rewrite Hout. by rewrite <- app_assoc.
    + rewrite for_content_tool_use in Hrun.
      destruct (execute_tool tool_name tool_args (world st)) as [[e|result] w1] eqn:Hexec;
        [done|].
      set (st2 := after_result _ _ _) in Hrun. cbv zeta in Hrun.
      destruct (messages_create (snapshot st2) w1) as [[e|answer] w2] eqn:Hcreate; [done|].
      assert (Hlist2 : lists st2 !! ac
                       = Some (kept (before ++ [ToolUseBlock tool_id tool_name tool_args]))).
      { subst st2. cbn [lists after_result after_call]. rewrite kept_snoc. cbn.
        unfold loc in *. by rewrite list_lookup_alter_eq, Hlist. }
      assert (Hlist3 : lists (after_response answer (after_request w2 st2)) !! ac
                       = Some (kept (before ++ [ToolUseBlock tool_id tool_name tool_args])))
        by (by rewrite lists_after_response).
      destruct (IH _ _ _ Hlist3 Hrun)
        as (rounds & Hcalls & Hturn & Hw & Hm & Hq & Hends & Hout & Hresp).
      rewrite world_after_response in Hturn, Hw.
      rewrite messages_after_response in Hm. rewrite requests_after_response in Hq.
      rewrite stdout_after_response in Hout. rewrite response_after_response in Hresp.
      exists (Round (ToolCall before tool_id tool_name tool_args) result
                (snapshot st2) answer w1 w2 :: rounds).
      cbn [map round_call tool_calls in_turn call_name call_args round_result
           round_request round_answer tool_world answer_world flat_map app].
      repeat split.
      * by rewrite Hcalls.
      * exact Hexec.
      * exact Hcreate.
      * exact Hturn.
      * exact Hw.
      * rewrite Hm. subst st2. cbn. by rewrite <- !app_assoc.
      * rewrite Hq. subst st2. cbn. by rewrite <- !app_assoc.
      * constructor; [|exact Hends].
        exists (map (read_turn (lists st2)) (messages st)).
        unfold snapshot at 1. subst st2.
        cbn [messages after_result after_call round_request].
        rewrite !map_app. cbn [map read_turn]. rewrite <- app_assoc.
        cbn [lists after_result after_call] in Hlist2 |- *.
        by rewrite Hlist2.
      * rewrite Hout. subst st2. cbn. by rewrite <- !app_assoc.
      * exact Hresp.
    + rewrite for_content_other in Hrun.
      assert (Hlist' : lists st !! ac = Some (kept (before ++ [OtherBlock ty])))
        by (by rewrite kept_snoc, app_nil_r).
      destruct (IH _ _ _ Hlist' Hrun) as (rounds & Hrest).
      by exists rounds.
Qed.

(** A pass that raises does so at a tool call, after one round for every
    tool call before it; of the call that raises only its line is
    printed. *)
Lemma for_content_raises ac blocks : forall before st e st',
  for_content ac blocks st = (inl e, st') ->
  exists n tool_id tool_name tool_args rounds,
    blocks !! n = Some (ToolUseBlock tool_id tool_name tool_args)
    /\ map round_call rounds = tool_calls before (take n blocks)
    /\ in_turn methods mapping_tool_function messages_create (world st) rounds
    /\ stdout st' = stdout st ++ pass_events (take (S n) blocks) (map round_answer rounds).
Proof.
  induction blocks as [|b rest IH]; intros before st e st' Hrun.
  - by rewrite for_content_nil in Hrun.
  - destruct b as [text|tool_id tool_name tool_args|ty].
    + rewrite for_content_text in Hrun.
      destruct (IH (before ++ [TextBlock text]) _ _ _ Hrun)
        as (n & id & name & args & rounds & Hn & Hcalls & Hturn & Hout).
      exists (S n), id, name, args, rounds.
      cbn [stdout world after_text] in Hturn, Hout.
      repeat split; try done. rewrite Hout. cbn. by rewrite <- app_assoc.
    + rewrite for_content_tool_use in Hrun.
      destruct (execute_tool tool_name tool_args (world st)) as [[e'|result] w1] eqn:Hexec.
      { injection Hrun as <- <-.
        exists 0, tool_id, tool_name, tool_args, []. cbn. done. }
      set (st2 := after_result _ _ _) in Hrun. cbv zeta in Hrun.
      destruct (messages_create (snapshot st2) w1) as [[e'|answer] w2] eqn:Hcreate.
      { injection Hrun as <- <-.
        exists 0, tool_id, tool_name, tool_args, []. cbn. done. }
      destruct (IH (before ++ [ToolUseBlock tool_id tool_name tool_args]) _ _ _ Hrun)
        as (n & id & name & args & rounds & Hn & Hcalls & Hturn & Hout).
      rewrite world_after_response in Hturn. rewrite stdout_after_response in Hout.
      exists (S n), id, name, args,
        (Round (ToolCall before tool_id tool_name tool_args) result
           (snapshot st2) answer w1 w2 :: rounds).
      repeat split; try done.
      * cbn. by rewrite Hcalls.
      * rewrite Hout. subst st2. cbn. by rewrite <- !app_assoc.
    + rewrite for_content_other in Hrun.
      destruct (IH (before ++ [OtherBlock ty]) _ _ _ Hrun)
        as (n & id & name & args & rounds & Hn & Hcalls & Hturn & Hout).
      by exists (S n), id, name, args, rounds.
Qed.

(** *** One assistant turn and one tool-result turn per tool call *)

(** C1 (as amended): take a response that the loop of [process_query]
    iterates over, in a pass that raises nothing.  For every tool-call
    block of the response, in block order, there is one round: the call is
    executed by [execute_tool], one assistant turn and one tool-result turn
    are appended, the latter with exactly one entry, which carries the id
    of the call and the string that [execute_tool] returned, and the
    backend is called right away with a conversation that ends with these
    two turns, the assistant turn holding the text and tool-call blocks of
    the response up to this call.  So N tool calls get N single-entry
    tool-result turns, one per request id in request order, and N backend
    calls; nothing else is appended or sent.  The next iteration, if there
    is one, is over the answer of the backend to the last of these calls:
    the answers to the calls before it are never iterated over. *)
Theorem C1_one_result_turn_per_tool_call k query w st :
  process_query k query w = OutOfFuel st ->
  has_raised (process_query (S k) query w) = false ->
  exists rounds,
    map round_call rounds = tool_calls [] (response st)
    /\ map (fun r => call_id (round_call r)) rounds = tool_use_ids (response st)
    /\ in_turn methods mapping_tool_function messages_create (world st) rounds
    /\ messages (final_state (process_query (S k) query w))
       = messages st ++ flat_map (round_turns (length (lists st))) rounds
    /\ requests (final_state (process_query (S k) query w))
       = requests st ++ map round_request rounds
    /\ Forall ends_with_round rounds
    /\ world (final_state (process_query (S k) query w)) = world_after (world st) rounds
    /\ response (final_state (process_query (S k) query w))
       = response_after (response st) rounds.
Proof.
  intros Hrun Hraised. pose proof (process_query_one_more _ _ _ _ Hrun) as Hnext.
  destruct (for_content (length (lists st)) (response st) (after_new_list st))
    as [[e|[]] st'] eqn:Hpass.
  { by rewrite Hnext in Hraised. }
  destruct Hnext as [-> _].
  assert (Hlist : lists (after_new_list st) !! length (lists st) = Some (kept [])).
  { cbn [lists after_new_list]. by rewrite lookup_app_r, Nat.sub_diag by done. }
  destruct (for_content_rounds _ _ _ _ _ Hlist Hpass)
    as (rounds & Hcalls & Hturn & Hw & Hm & Hq & Hends & _ & Hresp).
  exists rounds. repeat split; try done.
  rewrite <- (tool_calls_ids [] (response st)), <- Hcalls, map_map. done.
Qed.

(** *** Exceptions of tools *)

(** A tool call that raises ends the loop with that exception, wherever the
    call stands in the response: the assistant turn has been appended, no
    tool-result turn follows it and the backend is not called again. *)
Lemma process_query_raises_at_tool_call
    k query w st pre tool_id tool_name tool_args rest st1 e w' :
  process_query k query w = OutOfFuel st ->
  response st = pre ++ ToolUseBlock tool_id tool_name tool_args :: rest ->
  for_content (length (lists st)) pre (after_new_list st) = (inr tt, st1) ->
  execute_tool tool_name tool_args (world st1) = (inl e, w') ->
  exists st',
    (forall fuel, process_query (S k + fuel) query w = Raises e st')
    /\ messages st' = messages st1 ++ [AssistantTurn (length (lists st))]
    /\ requests st' = requests st1
    /\ stdout st' = stdout st1 ++ [PrintCallingTool tool_name tool_args]
    /\ world st' = w'.
Proof.
  intros Hrun Hresp Hpre Hexec.
  eexists. split.
  - intros fuel. rewrite (process_query_next_pass _ _ _ _ fuel Hrun).
    rewrite Hresp, for_content_app, Hpre, for_content_tool_use, Hexec. reflexivity.
  - done.
Qed.

(** C2 (as amended): for a tool-call request whose name is not a key of
    [mapping_tool_function], [execute_tool] raises [KeyError] and returns
    no string.  When such a request stands in a response that the loop of
    [process_query] iterates over, the query is given up in that pass; and
    when the blocks before the request have raised nothing, so that the
    loop reaches it, [process_query] ends with this [KeyError]: the
    assistant turn is the last turn appended, no tool-result turn answers
    the request and the backend is not called again. *)
Theorem C2_unknown_tool_raises_key_error tool_name tool_args :
  mapping_tool_function !! tool_name = None ->
  (forall w, execute_tool tool_name tool_args w = (inl (KeyError tool_name), w))
  /\ (forall k query w st pre tool_id rest,
        process_query k query w = OutOfFuel st ->
        response st = pre ++ ToolUseBlock tool_id tool_name tool_args :: rest ->
        (exists e st', forall fuel, process_query (S k + fuel) query w = Raises e st')
        /\ (forall st1,
              for_content (length (lists st)) pre (after_new_list st) = (inr tt, st1) ->
              exists st',
                (forall fuel,
                   process_query (S k + fuel) query w = Raises (KeyError tool_name) st')
                /\ messages st' = messages st1 ++ [AssistantTurn (length (lists st))]
                /\ requests st' = requests st1
                /\ world st' = world st1)).
Proof.
  intros Hnone.
  assert (Hexec : forall w, execute_tool tool_name tool_args w = (inl (KeyError tool_name), w)).
  { intros w. by apply execute_tool_unknown. }
  split; [exact Hexec|].
  intros k query w st pre tool_id rest Hrun Hresp.
  assert (Hreached : forall st1,
            for_content (length (lists st)) pre (after_new_list st) = (inr tt, st1) ->
            exists st',
              (forall fuel,
                 process_query (S k + fuel) query w = Raises (KeyError tool_name) st')
              /\ messages st' = messages st1 ++ [AssistantTurn (length (lists st))]
              /\ requests st' = requests st1
              /\ world st' = world st1).
  { intros st1 Hpre.
    destruct (process_query_raises_at_tool_call _ _ _ _ _ _ _ _ _ _ _ _
                Hrun Hresp Hpre (Hexec (world st1)))
      as (st' & Hraises & Hm & Hq & _ & Hw).
    by exists st'. }
  split; [|exact Hreached].
  destruct (for_content (length (lists st)) pre (after_new_list st))
    as [[e|[]] st1] eqn:Hpre.
  - exists e, st1. intros fuel. rewrite (process_query_next_pass _ _ _ _ fuel Hrun).
    by rewrite Hresp, for_content_app, Hpre.
  - destruct (Hreached st1 eq_refl) as (st' & Hraises & _). by exists (KeyError tool_name), st'.
Qed.

(** C3 (as amended): an exception raised by a tool function is not caught
    by [execute_tool], which raises it in turn, and it is not caught by
    [process_query] either.  When the call stands in a response that the
    loop iterates over and the blocks before it have raised nothing, so
    that the loop reaches it, [process_query] ends with this exception: the
    assistant turn is the last turn appended, no tool-result turn answers
    the request and the backend is not called again. *)
Theorem C3_tool_exception_propagates tool_name f tool_args e :
  mapping_tool_function !! tool_name = Some f ->
  (forall w w', f tool_args w = (inl e, w') ->
     execute_tool tool_name tool_args w = (inl e, w'))
  /\ (forall k query w st pre tool_id rest st1 w',
        process_query k query w = OutOfFuel st ->
        response st = pre ++ ToolUseBlock tool_id tool_name tool_args :: rest ->
        for_content (length (lists st)) pre (after_new_list st) = (inr tt, st1) ->
        f tool_args (world st1) = (inl e, w') ->
        exists st',
          (forall fuel, process_query (S k + fuel) query w = Raises e st')
          /\ messages st' = messages st1 ++ [AssistantTurn (length (lists st))]
          /\ requests st' = requests st1
          /\ world st' = w').
Proof.
  intros Hsome.
  assert (Hexec : forall w w', f tool_args w = (inl e, w') ->
                    execute_tool tool_name tool_args w = (inl e, w')).
  { intros w w' Hf. by rewrite (execute_tool_known _ _ _ _ Hsome), Hf. }
  split; [exact Hexec|].
  intros k query w st pre tool_id rest st1 w' Hrun Hresp Hpre Hf.
  destruct (process_query_raises_at_tool_call _ _ _ _ _ _ _ _ _ _ _ _
              Hrun Hresp Hpre (Hexec _ _ Hf))
    as (st' & Hraises & Hm & Hq & _ & Hw).
  by exists st'.
Qed.

(** *** Responses without tool calls *)

(** A response without tool calls that is not a single text block is
    iterated over again and again: the flag stays set, the response is never
    replaced, and every pass prints the same text. *)
Lemma while_spins fuel : forall st,
  process_query_flag st = true ->
  forallb (fun b => negb (is_tool_use b)) (response st) = true ->
  (Nat.eqb (length (response st)) 1 && existsb is_text (response st))%bool = false ->
  exists st',
    while_process_query fuel st = OutOfFuel st'
    /\ messages st' = messages st
    /\ requests st' = requests st
    /\ world st' = world st
    /\ stdout st' = stdout st ++ concat (replicate fuel (block_events (response st))).
Proof.
  induction fuel as [|fuel IH]; intros st Hflag Hno Hcond.
  - exists st. cbn. rewrite Hflag, app_nil_r. done.
  - rewrite (while_iterates _ _ Hflag).
    destruct (for_content_no_tool_use (length (lists st)) (response st)
                (after_new_list st) Hno)
      as (st1 & -> & Hm & Hr & Hq & Hw & Hout & Hflag1).
    cbn [response messages requests world stdout process_query_flag after_new_list] in *.
    rewrite Hcond in Hflag1.
    destruct (IH st1) as (st' & Hrun & Hm' & Hq' & Hw' & Hout').
    { congruence. } { by rewrite Hr. } { by rewrite Hr. }
    exists st'. rewrite Hrun, Hm', Hq', Hw', Hout', Hm, Hq, Hw, Hout, Hr.
    cbn [replicate concat]. by rewrite <- !app_assoc.
Qed.

(** C4 (what the code does on the failing input): when the first response
    has no content block, [process_query] prints nothing and calls the
    backend no further, but it does not return: for every amount of fuel the
    loop is still running when the fuel is used up. *)
Theorem C4_empty_response_never_returns query w w' :
  messages_create [UserMessage query] w = (inr [], w') ->
  forall fuel, exists st,
    process_query fuel query w = OutOfFuel st
    /\ stdout st = []
    /\ requests st = [[UserMessage query]]
    /\ messages st = [UserTurn query].
Proof.
  intros Hcreate fuel. rewrite process_query_first_call, Hcreate.
  destruct (while_spins fuel (PQState [UserTurn query] [] [] true [] [[UserMessage query]] w'))
    as (st & Hrun & Hm & Hq & _ & Hout); [done..|].
  exists st. cbn in *. repeat split; try done.
  rewrite Hout. clear. induction fuel; [done|]. done.
Qed.

Lemma text_only_no_tool_use (r : list block) :
  forallb is_text r = true -> forallb (fun b => negb (is_tool_use b)) r = true.
Proof.
  induction r as [|b rest IH]; cbn; [done|].
  intros Hr. apply andb_prop in Hr as [Hb Hrest]. rewrite (IH Hrest).
  by destruct b.
Qed.

(** C7 (what the code does on the failing input): when the first response
    is pure text in two or more blocks, [process_query] calls the backend
    no further (one call in all), but it neither stops after the text has
    been printed nor ever returns: every iteration prints the text of the
    response again, and for every amount of fuel the loop is still running
    when the fuel is used up. *)
Theorem C7_pure_text_in_several_blocks_never_returns query w w' r :
  messages_create [UserMessage query] w = (inr r, w') ->
  forallb is_text r = true ->
  2 <= length r ->
  forall fuel, exists st,
    process_query fuel query w = OutOfFuel st
    /\ stdout st = concat (replicate fuel (block_events r))
    /\ requests st = [[UserMessage query]].
Proof.
  intros Hcreate Htext Hlen fuel. rewrite process_query_first_call, Hcreate.
  destruct (while_spins fuel (PQState [UserTurn query] [] r true [] [[UserMessage query]] w'))
    as (st & Hrun & _ & Hq & _ & Hout); [done|by apply text_only_no_tool_use|..].
  { cbn [response]. destruct r as [|b1 [|b2 rest]]; cbn in Hlen |- *; try lia; done. }
  exists st. done.
Qed.

(** X14: when the first response is exactly one block and this block is
    text, [process_query] prints exactly that text and returns after this
    one backend call, in the first iteration of its loop. *)
Theorem X14_single_text_block_returns query w w' text :
  messages_create [UserMessage query] w = (inr [TextBlock text], w') ->
  forall fuel, exists st,
    process_query (S fuel) query w = Returns st
    /\ stdout st = [PrintText text]
    /\ requests st = [[UserMessage query]]
    /\ messages st = [UserTurn query]
    /\ world st = w'.
Proof.
  intros Hcreate fuel. rewrite process_query_first_call, Hcreate.
  rewrite while_iterates by done. cbn [response lists length].
  rewrite for_content_text, for_content_nil.
  eexists. split; [by apply while_returns|]. done.
Qed.

(** *** Order of the printed events *)

(** C8 (as amended): take a response that the loop of [process_query]
    iterates over.  A pass that raises nothing prints exactly this, block
    by block in the order of the response: the text of a text block; for a
    tool call its line, followed by the text of the answer of the backend
    to this call when the answer is a single text block; nothing for
    another block.  A pass that raises does so at a tool call, and has
    printed the same for the blocks before that call, and then the line of
    that call.  The answers are those that the backend gave, call after
    call; the next iteration is over the last of them, and of the others
    the loop emits nothing but this. *)
Theorem C8_events_in_block_order k query w st :
  process_query k query w = OutOfFuel st ->
  (has_raised (process_query (S k) query w) = false ->
   exists rounds,
     map round_call rounds = tool_calls [] (response st)
     /\ in_turn methods mapping_tool_function messages_create (world st) rounds
     /\ stdout (final_state (process_query (S k) query w))
        = stdout st ++ pass_events (response st) (map round_answer rounds)
     /\ response (final_state (process_query (S k) query w))
        = response_after (response st) rounds)
  /\ (has_raised (process_query (S k) query w) = true ->
      exists n tool_id tool_name tool_args rounds,
        response st !! n = Some (ToolUseBlock tool_id tool_name tool_args)
        /\ map round_call rounds = tool_calls [] (take n (response st))
        /\ in_turn methods mapping_tool_function messages_create (world st) rounds
        /\ stdout (final_state (process_query (S k) query w))
           = stdout st
             ++ pass_events (take (S n) (response st)) (map round_answer rounds)).
Proof.
  intros Hrun. pose proof (process_query_one_more _ _ _ _ Hrun) as Hnext.
  destruct (for_content (length (lists st)) (response st) (after_new_list st))
    as [[e|[]] st'] eqn:Hpass.
  - rewrite Hnext. split; [done|]. intros _.
    destruct (for_content_raises _ _ [] _ _ _ Hpass)
      as (n & id & name & args & rounds & Hn & Hcalls & Hturn & Hout).
    by exists n, id, name, args, rounds.
  - destruct Hnext as [-> ->]. split; [|done]. intros _.
    assert (Hlist : lists (after_new_list st) !! length (lists st) = Some (kept [])).
    { cbn [lists after_new_list]. by rewrite lookup_app_r, Nat.sub_diag by done. }
    destruct (for_content_rounds _ _ _ _ _ Hlist Hpass)
      as (rounds & Hcalls & Hturn & _ & _ & _ & _ & Hout & Hresp).
    by exists rounds.
Qed.

(** *** Normalization *)

(** C9 (as amended): two calls of [execute_tool] in which the tool
    functions return the same value give the same outcome, whatever the
    tool names, the arguments and the worlds the calls run in, when that
    value is [None], a list, a dict, or a value of the built-in classes
    throughout.  For an object of another class the outcome is what the
    [__str__] of its class makes of it at the time of the call. *)
Theorem C9_normalization_deterministic
    tool_name1 tool_name2 f1 f2 tool_args1 tool_args2 w1 w2 w1' w2' raw :
  mapping_tool_function !! tool_name1 = Some f1 ->
  mapping_tool_function !! tool_name2 = Some f2 ->
  f1 tool_args1 w1 = (inr raw, w1') ->
  f2 tool_args2 w2 = (inr raw, w2') ->
  (self_contained raw = true ->
   (execute_tool tool_name1 tool_args1 w1).1 = (execute_tool tool_name2 tool_args2 w2).1)
  /\ (forall ty obj, raw = POther ty obj ->
        (execute_tool tool_name1 tool_args1 w1).1 = object_str (methods w1') ty obj
        /\ (execute_tool tool_name2 tool_args2 w2).1 = object_str (methods w2') ty obj).
Proof.
  intros H1 H2 Hf1 Hf2.
  rewrite (execute_tool_known _ _ _ _ H1), (execute_tool_known _ _ _ _ H2), Hf1, Hf2.
  cbn [fst]. split.
  - apply normalize_self_contained.
  - by intros ty obj ->.
Qed.

(** C6 (as amended): when the tool function returns [raw], the result of
    [execute_tool] is the fixed sentence for [None]; the strings joined by
    [", "] for a list of strings (so the empty string for the empty list),
    and a [TypeError] for a list that holds anything else;
    [json.dumps(result, indent=2)] for a dict, which lists the entries in
    the order in which the dict holds its keys when it gives a string; and
    [str(result)] for every other value: the text itself for a [str], the
    decimal text for an int unless it has more than 4300 digits, which is a
    [ValueError], and what the [__str__] of its class gives for an object
    of another class.  It is a string whenever [raw], nested no deeper than
    [moderate_depth], is [None], a list of strings, a dict that [json] can
    serialize, or a value of the built-in classes throughout without an int
    of more than 4300 digits. *)
Theorem C6_normalization_cases tool_name f tool_args w raw w' :
  mapping_tool_function !! tool_name = Some f ->
  f tool_args w = (inr raw, w') ->
  let result := (execute_tool tool_name tool_args w).1 in
  (normalizable raw = true -> depth raw <= moderate_depth -> exists s, result = inr s)
  /\ (raw = PNone -> result = inr no_results)
  /\ (forall ss, raw = PList (map PStr ss) -> result = inr (String.concat ", " ss))
  /\ (forall items, raw = PList items -> forallb is_str items = false ->
        result = inl TypeError)
  /\ (forall items, raw = PDict items -> result = json_dumps raw 2)
  /\ (raw = PDict [] -> result = inr "{}")
  /\ (forall kv rest text, raw = PDict (kv :: rest) -> result = inr text ->
        exists entries,
          Forall2 (dict_entry 2 1) (kv :: rest) entries
          /\ text = "{" +:+ newline_indent 2 1
                        +:+ String.concat ("," +:+ newline_indent 2 1) entries
                        +:+ newline_indent 2 0 +:+ "}")
  /\ (forall s, raw = PStr s -> result = inr s)
  /\ (forall z, raw = PInt z ->
        result = if within_digits z then inr (pretty z) else inl ValueError)
  /\ (forall b, raw = PBool b -> result = inr (if b then "True" else "False"))
  /\ (forall x, raw = PFloat x -> result = inr (float_str x))
  /\ (forall items, raw = PTuple items -> result = py_repr (methods w') raw)
  /\ (forall ty obj, raw = POther ty obj -> result = object_str (methods w') ty obj).
Proof.
  intros Hsome Hf result. subst result.
  rewrite (execute_tool_known _ _ _ _ Hsome), Hf. cbn [fst].
  repeat split.
  - intros Hok _. by apply normalize_defined.
  - by intros ->.
  - intros ss ->. cbn [normalize]. unfold str_join. by rewrite str_items_strings.
  - intros items -> Hbad. cbn [normalize]. unfold str_join.
    by rewrite (str_items_raises items Hbad).
  - by intros items ->.
  - by intros ->.
  - intros kv rest text -> Htext. by apply json_dumps_dict_entries.
  - by intros s ->.
  - by intros z ->.
  - by intros [|] ->.
  - by intros x ->.
  - by intros items ->.
  - by intros ty obj ->.
Qed.

(** *** The chat loop *)

(** C10 (as amended): an exception that leaves [process_query] and is an
    instance of [Exception] is caught by the loop of [chat_loop], which
    prints it and goes on to read the next query; an exception that leaves
    [process_query] and is not an instance of [Exception] is not caught: it
    ends [chat_loop], nothing is printed for it and no further line is
    read.  When [chat_loop] returns, it has just read a line that is
    ['quit'] once stripped and lowercased, after lines that were not; and
    the only exceptions that end [chat_loop] are those that are not
    instances of [Exception]. *)
Theorem C10_chat_loop_catches_exceptions :
  (forall fuel pq_fuel line stdin out w e st,
     lower (strip line) <> "quit" ->
     process_query pq_fuel (strip line) w = Raises e st ->
     is_exception e = true ->
     chat_while (S fuel) pq_fuel (line :: stdin) out w
     = chat_while fuel pq_fuel stdin
         (out ++ [PrintPrompt] ++ stdout st ++ [PrintError e]) (world st))
  /\ (forall fuel pq_fuel line stdin out w e st,
        lower (strip line) <> "quit" ->
        process_query pq_fuel (strip line) w = Raises e st ->
        is_exception e = false ->
        chat_while (S fuel) pq_fuel (line :: stdin) out w
        = ChatRaises e (out ++ [PrintPrompt] ++ stdout st) stdin (world st))
  /\ (forall fuel pq_fuel stdin out w out' rest w',
        chat_while fuel pq_fuel stdin out w = ChatExits out' rest w' ->
        exists before line,
          stdin = before ++ line :: rest
          /\ lower (strip line) = "quit"
          /\ Forall (fun l => lower (strip l) <> "quit") before)
  /\ (forall fuel pq_fuel stdin out w e out' rest w',
        chat_while fuel pq_fuel stdin out w = ChatRaises e out' rest w' ->
        is_exception e = false).
Proof.
  repeat split.
  - intros fuel pq_fuel line stdin out w e st Hquit Hrun He.
    cbn [chat_while]. apply String.eqb_neq in Hquit.
    by rewrite Hquit, Hrun, He.
  - intros fuel pq_fuel line stdin out w e st Hquit Hrun He.
    cbn [chat_while]. apply String.eqb_neq in Hquit.
    by rewrite Hquit, Hrun, He.
  - intros fuel pq_fuel. induction fuel as [|fuel IH];
      intros stdin out w out' rest w' Hrun; [done|].
    cbn [chat_while] in Hrun.
    destruct stdin as [|line stdin].
    { destruct (IH _ _ _ _ _ _ Hrun) as (before & l & Hnil & _).
      by destruct before. }
    destruct (String.eqb (lower (strip line)) "quit") eqn:Hquit.
    { injection Hrun as <- <- <-. apply String.eqb_eq in Hquit.
      exists [], line. done. }
    apply String.eqb_neq in Hquit.
    destruct (process_query pq_fuel (strip line) w) as [st|e st|st]; [| |done].
    + destruct (IH _ _ _ _ _ _ Hrun) as (before & l & -> & Hl & Hbefore).
      exists (line :: before), l. repeat split; [done|]. by constructor.
    + destruct (is_exception e); [|done].
      destruct (IH _ _ _ _ _ _ Hrun) as (before & l & -> & Hl & Hbefore).
      exists (line :: before), l. repeat split; [done|]. by constructor.
  - intros fuel pq_fuel. induction fuel as [|fuel IH];
      intros stdin out w e out' rest w' Hrun; [done|].
    cbn [chat_while] in Hrun.
    destruct stdin as [|line stdin]; [exact (IH _ _ _ _ _ _ _ Hrun)|].
    destruct (String.eqb (lower (strip line)) "quit"); [done|].
    destruct (process_query pq_fuel (strip line) w) as [st|e' st|st]; [| |done].
    + exact (IH _ _ _ _ _ _ _ Hrun).
    + destruct (is_exception e') eqn:He'; [exact (IH _ _ _ _ _ _ _ Hrun)|].
      injection Hrun as <- _ _ _. exact He'.
Qed.

End Properties.

(** ** The properties on concrete runs *)

Lemma C1_one_result_turn_per_tool_call_witness :
  process_query at_address demo_tools (scripted parallel_script) 0 "q" 0
  = OutOfFuel (state_at [call_search; call_extract])
  /\ has_raised (process_query at_address demo_tools (scripted parallel_script) 1 "q" 0)
     = false
  /\ exists rounds,
       map round_call rounds = tool_calls [] [call_search; call_extract]
       /\ map (fun r => call_id (round_call r)) rounds = ["toolu_A"; "toolu_B"]
       /\ in_turn at_address demo_tools (scripted parallel_script) 1 rounds
       /\ messages (final_state
                      (process_query at_address demo_tools (scripted parallel_script) 1 "q" 0))
          = [UserTurn "q"] ++ flat_map (round_turns 0) rounds
       /\ requests (final_state
                      (process_query at_address demo_tools (scripted parallel_script) 1 "q" 0))
          = [[UserMessage "q"]] ++ map round_request rounds
       /\ Forall ends_with_round rounds
       /\ world (final_state
                   (process_query at_address demo_tools (scripted parallel_script) 1 "q" 0))
          = world_after 1 rounds
       /\ response (final_state
                      (process_query at_address demo_tools (scripted parallel_script) 1 "q" 0))
          = response_after [call_search; call_extract] rounds.
Proof.
  assert (Hrun : process_query at_address demo_tools (scripted parallel_script) 0 "q" 0
                 = OutOfFuel (state_at [call_search; call_extract]))
    by (vm_compute; reflexivity).
  assert (Hok : has_raised
                  (process_query at_address demo_tools (scripted parallel_script) 1 "q" 0)
                = false)
    by (vm_compute; reflexivity).
  split; [exact Hrun|]. split; [exact Hok|].
  exact (C1_one_result_turn_per_tool_call at_address demo_tools
           (scripted parallel_script) 0 "q" 0 _ Hrun Hok).
Defined.

(** C1 as stated fails: with two tool calls in the first response, the
    conversation sent with the second backend call is not the batched round
    (its assistant turn holds the first call only and its tool-result turn
    has one entry). *)
Lemma C1_counterexample :
  exists st request,
    process_query at_address demo_tools (scripted parallel_script) 5 "q" 0 = Returns st
    /\ requests st !! 1 = Some request
    /\ length (tool_use_ids [call_search; call_extract]) = 2
    /\ ~ batched_round [call_search; call_extract] request.
Proof.
  eexists _, _. split; [vm_compute; reflexivity|]. split; [reflexivity|].
  split; [reflexivity|].
  intros (query & results & Hrequest & _). discriminate Hrequest.
Qed.

Lemma C2_unknown_tool_raises_key_error_witness :
  demo_tools !! "delete_paper" = None
  /\ execute_tool at_address demo_tools "delete_paper" (PDict [(PStr "paper_id", PStr "X")]) 0
     = (inl (KeyError "delete_paper"), 0)
  /\ process_query at_address demo_tools (scripted second_unknown_script) 0 "q" 0
     = OutOfFuel (state_at [TextBlock "Let me look."; call_search; call_unknown])
  /\ exists st1,
       for_content at_address demo_tools (scripted second_unknown_script) 0
         [TextBlock "Let me look."; call_search]
         (after_new_list (state_at [TextBlock "Let me look."; call_search; call_unknown]))
       = (inr tt, st1)
       /\ exists st',
            (forall fuel,
               process_query at_address demo_tools (scripted second_unknown_script)
                 (1 + fuel) "q" 0
               = Raises (KeyError "delete_paper") st')
            /\ messages st' = messages st1 ++ [AssistantTurn 0]
            /\ requests st' = requests st1
            /\ world st' = world st1.
Proof.
  assert (Hnone : demo_tools !! "delete_paper" = None) by (vm_compute; reflexivity).
  assert (Hrun : process_query at_address demo_tools (scripted second_unknown_script) 0 "q" 0
                 = OutOfFuel (state_at [TextBlock "Let me look."; call_search; call_unknown]))
    by (vm_compute; reflexivity).
  split; [exact Hnone|].
  destruct (C2_unknown_tool_raises_key_error at_address demo_tools
              (scripted second_unknown_script)
              "delete_paper" (PDict [(PStr "paper_id", PStr "X")]) Hnone)
    as [Hexec Hloop].
  split; [apply Hexec|]. split; [exact Hrun|].
  destruct (Hloop 0 "q" 0 _ [TextBlock "Let me look."; call_search] "toolu_C" []
              Hrun eq_refl) as [_ Hreached].
  eexists. split; [vm_compute; reflexivity|].
  apply Hreached. vm_compute. reflexivity.
Defined.

(** C2 as stated fails: for a name that is not registered, [execute_tool]
    returns no string, and the query is given up with a [KeyError]. *)
Lemma C2_counterexample :
  (~ exists s, (execute_tool at_address demo_tools "delete_paper" (PDict []) 0).1 = inr s)
  /\ exists st,
       process_query at_address demo_tools
         (scripted [inr [call_unknown]; inr [TextBlock "Done."]])
         5 "delete paper X" 0
       = Raises (KeyError "delete_paper") st
       /\ length (requests st) = 1.
Proof.
  split.
  - intros [s Hs]. vm_compute in Hs. discriminate Hs.
  - eexists. split; [vm_compute; reflexivity|reflexivity].
Qed.

Lemma C3_tool_exception_propagates_witness :
  demo_tools !! "broken" = Some (pure_tool (fun _ => inl (Raised "connection refused")))
  /\ execute_tool at_address demo_tools "broken" (PDict []) 0
     = (inl (Raised "connection refused"), 0)
  /\ process_query at_address demo_tools (scripted second_broken_script) 0 "q" 0
     = OutOfFuel (state_at [call_search; call_broken])
  /\ exists st1,
       for_content at_address demo_tools (scripted second_broken_script) 0
         [call_search] (after_new_list (state_at [call_search; call_broken]))
       = (inr tt, st1)
       /\ exists st',
            (forall fuel,
               process_query at_address demo_tools (scripted second_broken_script)
                 (1 + fuel) "q" 0
               = Raises (Raised "connection refused") st')
            /\ messages st' = messages st1 ++ [AssistantTurn 0]
            /\ requests st' = requests st1
            /\ world st' = 2.
Proof.
  assert (Hsome : demo_tools !! "broken"
                  = Some (pure_tool (fun _ => inl (Raised "connection refused"))))
    by (vm_compute; reflexivity).
  assert (Hrun : process_query at_address demo_tools (scripted second_broken_script) 0 "q" 0
                 = OutOfFuel (state_at [call_search; call_broken]))
    by (vm_compute; reflexivity).
  split; [exact Hsome|].
  destruct (C3_tool_exception_propagates at_address demo_tools
              (scripted second_broken_script) "broken" _
              (PDict []) (Raised "connection refused") Hsome)
    as [Hexec Hloop].
  split; [by apply Hexec|]. split; [exact Hrun|].
  eexists. split; [vm_compute; reflexivity|].
  eapply (Hloop 0 "q" 0 _ [call_search] "toolu_D" [] _ 2 Hrun eq_refl).
  - vm_compute. reflexivity.
  - reflexivity.
Defined.

(** C3 as stated fails: the exception of the tool leaves [execute_tool] and
    [process_query], although the backend would have stopped asking for
    tools at its next answer. *)
Lemma C3_counterexample :
  (execute_tool at_address demo_tools "broken" (PDict []) 0).1
  = inl (Raised "connection refused")
  /\ exists st,
       process_query at_address demo_tools
         (scripted [inr [call_broken]; inr [TextBlock "Done."]])
         5 "q" 0
       = Raises (Raised "connection refused") st
       /\ length (requests st) = 1.
Proof.
  split; [vm_compute; reflexivity|].
  eexists. split; [vm_compute; reflexivity|reflexivity].
Qed.

Lemma C4_empty_response_never_returns_witness :
  scripted [inr []] [UserMessage "hello"] 0 = (inr [], 1)
  /\ exists st,
       process_query at_address demo_tools (scripted [inr []]) 7 "hello" 0 = OutOfFuel st
       /\ stdout st = []
       /\ requests st = [[UserMessage "hello"]]
       /\ messages st = [UserTurn "hello"].
Proof.
  split; [reflexivity|].
  apply (C4_empty_response_never_returns at_address demo_tools (scripted [inr []])
           "hello" 0 1).
  reflexivity.
Defined.

(** C5 (what the code does on the failing input): with two tool calls in
    one response, the assistant turn at position 1 of the conversation is
    sent to the backend with one block at the second call and with two
    blocks at the third call: its role is the same but its content was
    changed after the turn had been appended, because the turn shares its
    list with [assistant_content]. *)
Theorem C5_assistant_turn_changes_after_append :
  exists st request2 request3 turn2 turn3,
    process_query at_address demo_tools (scripted parallel_script) 5 "q" 0 = Returns st
    /\ requests st !! 1 = Some request2
    /\ requests st !! 2 = Some request3
    /\ request2 !! 1 = Some turn2
    /\ request3 !! 1 = Some turn3
    /\ role turn2 = role turn3
    /\ turn2 = AssistantMessage [call_search]
    /\ turn3 = AssistantMessage [call_search; call_extract]
    /\ turn2 <> turn3.
Proof.
  eexists _, _, _, _, _. split; [vm_compute; reflexivity|].
  repeat split; [reflexivity..|discriminate].
Qed.

Lemma C6_normalization_cases_witness :
  demo_tools !! "search_papers"
  = Some (pure_tool (fun _ => inr (PList [PStr "1310.7911v2"; PStr "2208.00733v1"])))
  /\ normalizable (PList [PStr "1310.7911v2"; PStr "2208.00733v1"]) = true
  /\ (execute_tool at_address demo_tools "search_papers" (PDict []) 0).1
     = inr "1310.7911v2, 2208.00733v1".
Proof.
  assert (Hsome : demo_tools !! "search_papers"
                  = Some (pure_tool (fun _ =>
                            inr (PList [PStr "1310.7911v2"; PStr "2208.00733v1"]))))
    by (vm_compute; reflexivity).
  split; [exact Hsome|]. split; [reflexivity|].
  destruct (C6_normalization_cases at_address demo_tools "search_papers" _ (PDict []) 0 _ 0
              Hsome eq_refl)
    as (_ & _ & Hlist & _).
  apply (Hlist ["1310.7911v2"; "2208.00733v1"]). reflexivity.
Defined.

(** C6 as stated fails: the normalization raises on a list that holds
    something else than strings and on an int of more than 4300 digits,
    the empty list gives the empty string and not the fixed sentence, and
    two equal dicts whose keys were inserted in different orders give
    different strings. *)
Lemma C6_counterexample :
  (execute_tool at_address demo_tools "counts" (PDict []) 0).1 = inl TypeError
  /\ normalize (at_address 0) huge_int = inl ValueError
  /\ normalize (at_address 0) (PList []) = inr EmptyString
  /\ normalize (at_address 0) (PList []) <> inr no_results
  /\ normalize (at_address 0) dict_ab <> normalize (at_address 0) dict_ba.
Proof.
  split; [vm_compute; reflexivity|]. split; [vm_compute; reflexivity|].
  split; [reflexivity|].
  split; vm_compute; discriminate.
Qed.

Lemma C7_pure_text_in_several_blocks_never_returns_witness :
  scripted [inr [TextBlock "Hello,"; TextBlock "world."]] [UserMessage "hi"] 0
  = (inr [TextBlock "Hello,"; TextBlock "world."], 1)
  /\ forallb is_text [TextBlock "Hello,"; TextBlock "world."] = true
  /\ 2 <= length [TextBlock "Hello,"; TextBlock "world."]
  /\ exists st,
       process_query at_address demo_tools
         (scripted [inr [TextBlock "Hello,"; TextBlock "world."]]) 3 "hi" 0
       = OutOfFuel st
       /\ stdout st
          = concat (replicate 3 (block_events [TextBlock "Hello,"; TextBlock "world."]))
       /\ requests st = [[UserMessage "hi"]].
Proof.
  split; [reflexivity|]. split; [reflexivity|]. split; [cbn; lia|].
  apply (C7_pure_text_in_several_blocks_never_returns at_address demo_tools
           (scripted [inr [TextBlock "Hello,"; TextBlock "world."]]) "hi" 0 1
           [TextBlock "Hello,"; TextBlock "world."]);
    [reflexivity|reflexivity|cbn; lia].
Defined.

(** [process_query] can also return although no response was a single text
    block: when text follows a tool call whose answer is one block of
    another kind, the test of the text branch reads the answer. *)
Lemma returns_without_single_text_block :
  exists st,
    process_query at_address demo_tools (scripted dangling_script) 5 "q" 0 = Returns st
    /\ length (requests st) = 2
    /\ Forall (fun r => ~ exists text, r = inr [TextBlock text]) dangling_script.
Proof.
  eexists. split; [vm_compute; reflexivity|]. split; [reflexivity|].
  repeat constructor; intros [text Htext]; discriminate Htext.
Qed.

Lemma C8_events_in_block_order_witness :
  process_query at_address demo_tools (scripted announced_script) 0 "q" 0
  = OutOfFuel (state_at [TextBlock "Searching."; call_search; call_extract])
  /\ has_raised (process_query at_address demo_tools (scripted announced_script) 1 "q" 0)
     = false
  /\ exists rounds,
       map round_call rounds
       = tool_calls [] [TextBlock "Searching."; call_search; call_extract]
       /\ in_turn at_address demo_tools (scripted announced_script) 1 rounds
       /\ stdout (final_state
                    (process_query at_address demo_tools (scripted announced_script) 1 "q" 0))
          = [] ++ pass_events [TextBlock "Searching."; call_search; call_extract]
                    (map round_answer rounds)
       /\ response (final_state
                      (process_query at_address demo_tools (scripted announced_script) 1 "q" 0))
          = response_after [TextBlock "Searching."; call_search; call_extract] rounds.
Proof.
  assert (Hrun : process_query at_address demo_tools (scripted announced_script) 0 "q" 0
                 = OutOfFuel (state_at [TextBlock "Searching."; call_search; call_extract]))
    by (vm_compute; reflexivity).
  assert (Hok : has_raised
                  (process_query at_address demo_tools (scripted announced_script) 1 "q" 0)
                = false)
    by (vm_compute; reflexivity).
  split; [exact Hrun|]. split; [exact Hok|].
  destruct (C8_events_in_block_order at_address demo_tools (scripted announced_script)
              0 "q" 0 _ Hrun) as [Hreturns _].
  exact (Hreturns Hok).
Defined.

(** C8 as stated fails: the backend's answer to the first of two tool
    calls is a response of two text blocks, and [process_query] returns
    without having emitted either of them: the answer to the second call
    has replaced that response before the loop came to iterate over it. *)
Lemma C8_counterexample :
  exists st,
    process_query at_address demo_tools (scripted replaced_script) 5 "q" 0 = Returns st
    /\ scripted replaced_script
         [UserMessage "q"; AssistantMessage [call_search];
          ToolResultMessage [ToolResult "toolu_A" "1310.7911v2, 2208.00733v1"]] 1
       = (inr [TextBlock "First the ids,"; TextBlock "then the details."], 2)
    /\ requests st !! 1
       = Some [UserMessage "q"; AssistantMessage [call_search];
               ToolResultMessage [ToolResult "toolu_A" "1310.7911v2, 2208.00733v1"]]
    /\ stdout st
       = [PrintCallingTool "search_papers" (PDict [(PStr "topic", PStr "computers")]);
          PrintCallingTool "extract_info" (PDict [(PStr "paper_id", PStr "X")]);
          PrintText "Nothing is saved about paper X."]
    /\ (PrintText "First the ids," ∉ stdout st)
    /\ (PrintText "then the details." ∉ stdout st).
Proof.
  eexists. split; [vm_compute; reflexivity|]. split; [reflexivity|].
  split; [reflexivity|]. split; [reflexivity|].
  split; intros Hin; repeat (apply elem_of_cons in Hin as [Hin|Hin]; [discriminate Hin|]);
    by apply elem_of_nil in Hin.
Qed.

Lemma C9_normalization_deterministic_witness :
  demo_tools !! "extract_info"
  = Some (pure_tool (fun _ => inr (PStr "There's no saved information related to paper X.")))
  /\ self_contained (PStr "There's no saved information related to paper X.") = true
  /\ (execute_tool at_address demo_tools "extract_info"
        (PDict [(PStr "paper_id", PStr "X")]) 0).1
     = (execute_tool at_address demo_tools "extract_info"
          (PDict [(PStr "paper_id", PStr "Y")]) 3).1.
Proof.
  assert (Hsome : demo_tools !! "extract_info"
                  = Some (pure_tool (fun _ =>
                            inr (PStr "There's no saved information related to paper X."))))
    by (vm_compute; reflexivity).
  split; [exact Hsome|]. split; [reflexivity|].
  destruct (C9_normalization_deterministic at_address demo_tools
              "extract_info" "extract_info" _ _
              (PDict [(PStr "paper_id", PStr "X")]) (PDict [(PStr "paper_id", PStr "Y")])
              0 3 0 3 _ Hsome Hsome eq_refl eq_refl) as [Hsame _].
  apply Hsame. reflexivity.
Defined.

(** C9 as stated fails: a tool returns the same object of another class in
    two calls, and the two results differ, because the [__str__] that the
    class inherits from [object] shows where the object is. *)
Lemma C9_counterexample :
  demo_tools !! "newest_paper"
  = Some (pure_tool (fun _ => inr (POther "Paper" "1310.7911v2")))
  /\ (execute_tool at_address demo_tools "newest_paper" (PDict []) 0).1
     = inr "<Paper object at 0>"
  /\ (execute_tool at_address demo_tools "newest_paper" (PDict []) 1).1
     = inr "<Paper object at 1>"
  /\ (execute_tool at_address demo_tools "newest_paper" (PDict []) 0).1
     <> (execute_tool at_address demo_tools "newest_paper" (PDict []) 1).1.
Proof.
  split; [vm_compute; reflexivity|]. split; [vm_compute; reflexivity|].
  split; [vm_compute; reflexivity|]. vm_compute. discriminate.
Qed.

Lemma C10_chat_loop_catches_exceptions_witness :
  lower (strip "  Search papers ") <> "quit"
  /\ is_exception (Raised "overloaded") = true
  /\ (exists out rest w,
        chat_loop at_address demo_tools (scripted [inl (Raised "overloaded")]) 3 5
          ["  Search papers "; " QUIT "; "never read"] 0
        = ChatExits out rest w
        /\ rest = ["never read"]
        /\ PrintError (Raised "overloaded") ∈ out)
  /\ (exists before line,
        ["  Search papers "; " QUIT "; "never read"] = before ++ line :: ["never read"]
        /\ lower (strip line) = "quit"
        /\ Forall (fun l => lower (strip l) <> "quit") before)
  /\ is_exception KeyboardInterrupt = false
  /\ chat_loop at_address demo_tools (scripted [inl KeyboardInterrupt]) 3 5
       ["  Search papers "; " QUIT "; "never read"] 0
     = ChatRaises KeyboardInterrupt [PrintBanner; PrintPrompt] [" QUIT "; "never read"] 1.
Proof.
  destruct (C10_chat_loop_catches_exceptions at_address demo_tools
              (scripted [inl (Raised "overloaded")])) as (Hcatch & _ & Hexit & _).
  destruct (C10_chat_loop_catches_exceptions at_address demo_tools
              (scripted [inl KeyboardInterrupt])) as (_ & Hleave & _).
  assert (Hquit : lower (strip "  Search papers ") <> "quit")
    by (vm_compute; discriminate).
  split; [exact Hquit|]. split; [reflexivity|]. split; [|split; [|split]].
  - eexists _, _, _. split.
    + unfold chat_loop.
      rewrite (Hcatch 2 5 "  Search papers " [" QUIT "; "never read"] [PrintBanner] 0
                 (Raised "overloaded")
                 (PQState [UserTurn "Search papers"] [] [] true []
                    [[UserMessage "Search papers"]] 1) Hquit eq_refl eq_refl).
      vm_compute. reflexivity.
    + split; [reflexivity|]. vm_compute. set_solver.
  - eapply (Hexit 3 5 _ [PrintBanner] 0). vm_compute. reflexivity.
  - reflexivity.
  - unfold chat_loop.
    exact (Hleave 2 5 "  Search papers " [" QUIT "; "never read"] [PrintBanner] 0
             KeyboardInterrupt
             (PQState [UserTurn "Search papers"] [] [] true []
                [[UserMessage "Search papers"]] 1) Hquit eq_refl eq_refl).
Defined.

(** C10 as stated fails: an interrupt that arrives while the backend is
    being called is an exception raised while the query is processed, and it
    ends [chat_loop]: no error message is printed and the next line, which
    is ['quit'], is never read. *)
Lemma C10_counterexample :
  chat_loop at_address demo_tools (scripted [inl KeyboardInterrupt]) 3 5
    ["Search papers"; "quit"] 0
  = ChatRaises KeyboardInterrupt [PrintBanner; PrintPrompt] ["quit"] 1.
Proof. vm_compute. reflexivity. Qed.

Lemma X14_single_text_block_returns_witness :
  scripted [inr [TextBlock "Hello!"]] [UserMessage "hi"] 0 = (inr [TextBlock "Hello!"], 1)
  /\ exists st,
       process_query at_address demo_tools (scripted [inr [TextBlock "Hello!"]]) 1 "hi" 0
       = Returns st
       /\ stdout st = [PrintText "Hello!"]
       /\ requests st = [[UserMessage "hi"]]
       /\ messages st = [UserTurn "hi"]
       /\ world st = 1.
Proof.
  split; [reflexivity|].
  apply (X14_single_text_block_returns at_address demo_tools
           (scripted [inr [TextBlock "Hello!"]]) "hi" 0 1 "Hello!" eq_refl 0).
Defined.

(** ** More on the normalization: when it raises *)

(** X1: with the value [raw] returned by the tool function, [execute_tool]
    raises a [TypeError] when [raw] is a list that holds something else
    than strings; a [TypeError] or a [ValueError] when [raw] is a dict,
    nested no deeper than [moderate_depth], that [json] cannot serialize
    (it holds an object of another class, an int of more than 4300 digits,
    or a key that is not a [str], an [int], a [float], a [bool] or
    [None]); and a [ValueError] when [raw] is an int of more than 4300
    digits. *)
Theorem X1_execute_tool_raises
    {World : Type} (methods : World -> object_methods)
    (mapping_tool_function : gmap string (@capability World))
    tool_name f tool_args w raw w' :
  mapping_tool_function !! tool_name = Some f ->
  f tool_args w = (inr raw, w') ->
  let outcome := execute_tool methods mapping_tool_function tool_name tool_args w in
  (forall items, raw = PList items -> forallb is_str items = false ->
     outcome = (inl TypeError, w'))
  /\ (forall items, raw = PDict items -> serializable raw = false ->
        depth raw <= moderate_depth ->
        outcome = (inl TypeError, w') \/ outcome = (inl ValueError, w'))
  /\ (forall z, raw = PInt z -> within_digits z = false ->
        outcome = (inl ValueError, w')).
Proof.
  intros Hsome Hf outcome. subst outcome.
  rewrite (execute_tool_known _ _ _ _ _ _ Hsome), Hf.
  repeat split.
  - intros items -> Hbad. cbn [normalize]. unfold str_join.
    by rewrite (str_items_raises items Hbad).
  - intros items -> Hbad _. cbn [normalize]. unfold json_dumps.
    destruct (iterencode_not_serializable 2 (PDict items) 0 Hbad) as (e & -> & [->| ->]);
      auto.
  - intros z -> Hz. cbn [normalize py_str py_repr]. by rewrite (int_str_beyond z Hz).
Qed.

(** ** Properties of [extract_info] and [search_papers] *)

Lemma contains_dict paper_id items :
  contains (PDict items) paper_id
  = inr (match dict_get paper_id items with Some _ => true | None => false end).
Proof.
  cbn. f_equal. induction items as [|[k v] rest IH]; cbn; [done|].
  by destruct (is_key paper_id k).
Qed.

(** Entries that are passed by do not change the result. *)
Lemma extract_info_loop_passes paper_id pre rest :
  forallb (passed_by paper_id) pre = true ->
  (extract_info_loop paper_id (pre ++ rest)).1 = (extract_info_loop paper_id rest).1.
Proof.
  induction pre as [|[item d] pre IH]; cbn [app forallb]; [done|].
  intros Hpre. apply andb_prop in Hpre as [Hd Hpre]. specialize (IH Hpre).
  unfold passed_by in Hd. cbn [snd] in Hd. cbn [extract_info_loop].
  destruct d as [ | |[[ | | | | | | |items| ]|msg|msg|e]]; try done.
  - rewrite contains_dict. by destruct (dict_get paper_id items).
  - destruct (extract_info_loop paper_id (pre ++ rest)). by cbn in *.
  - destruct (extract_info_loop paper_id (pre ++ rest)). by cbn in *.
Qed.

(** X2: when no file of the listing holds [paper_id] (each entry is no
    directory, has no file, has a missing or corrupt file, or is a dict
    without this key), [extract_info] raises nothing and returns the
    sentence that names the paper. *)
Theorem X2_extract_info_not_saved paper_id listing :
  forallb (passed_by paper_id) listing = true ->
  (extract_info paper_id (inr listing)).1 = inr (not_saved paper_id).
Proof.
  intros Hall. cbn [extract_info].
  rewrite <- (app_nil_r listing). by rewrite (extract_info_loop_passes _ _ [] Hall).
Qed.

Lemma extract_info_loop_first_match paper_id pre item items info post :
  forallb (passed_by paper_id) pre = true ->
  dict_get paper_id items = Some info ->
  (extract_info_loop paper_id
     (pre ++ (item, DirWithFile (Loaded (PDict items))) :: post)).1
  = json_dumps info 2.
Proof.
  intros Hpre Hget.
  rewrite (extract_info_loop_passes _ _ _ Hpre). cbn [extract_info_loop].
  rewrite contains_dict, Hget. cbn [get_item]. by rewrite Hget.
Qed.

(** X3: the first file of the listing that holds [paper_id] decides the
    result: when the entries before it are passed by, [extract_info] returns
    [json.dumps(info, indent=2)] for the value stored under the key,
    whatever comes after. *)
Theorem X3_extract_info_first_match paper_id pre item items info post :
  forallb (passed_by paper_id) pre = true ->
  dict_get paper_id items = Some info ->
  (extract_info paper_id
     (inr (pre ++ (item, DirWithFile (Loaded (PDict items))) :: post))).1
  = json_dumps info 2.
Proof.
  intros Hpre Hget. cbn [extract_info]. by apply extract_info_loop_first_match.
Qed.

(** X4: directories without a readable file never change what
    [extract_info] finds: the result is the one for the listing without the
    entries that are no directory, have no file, or have a file that is
    missing or corrupt. *)
Theorem X4_extract_info_skips_unreadable paper_id listing :
  (extract_info paper_id (inr listing)).1
  = (extract_info paper_id
       (inr (List.filter (fun entry => negb (unreadable entry)) listing))).1.
Proof.
  cbn [extract_info].
  induction listing as [|[item d] rest IH]; [done|].
  cbn [List.filter extract_info_loop]. unfold unreadable at 1. cbn [snd].
  destruct d as [ | |[papers_info|msg|msg|e]]; cbn [negb]; try done.
  - cbn [extract_info_loop].
    destruct (contains papers_info paper_id) as [e|[|]]; [done..|exact IH].
  - destruct (extract_info_loop paper_id rest). exact IH.
  - destruct (extract_info_loop paper_id rest). exact IH.
Qed.

Lemma dict_get_set_eq key value items :
  dict_get key (dict_set key value items) = Some value.
Proof.
  induction items as [|[k v] rest IH]; cbn.
  - by rewrite String.eqb_refl.
  - destruct (is_key key k) eqn:Hk; cbn; by rewrite Hk.
Qed.

Lemma dict_get_set_ne key key' value items :
  key <> key' ->
  dict_get key' (dict_set key value items) = dict_get key' items.
Proof.
  intros Hne. induction items as [|[k v] rest IH]; cbn.
  - apply String.eqb_neq in Hne. by rewrite Hne.
  - destruct (is_key key k) eqn:Hk; cbn; [|by rewrite IH].
    destruct k; try done. cbn in Hk |- *. apply String.eqb_eq in Hk as ->.
    apply String.eqb_neq in Hne. by rewrite Hne.
Qed.

Lemma serializable_dict_set key value items :
  serializable value = true ->
  serializable (PDict items) = true ->
  serializable (PDict (dict_set key value items)) = true.
Proof.
  intros Hvalue. cbn [serializable].
  induction items as [|[k v] rest IH]; cbn; intros Hitems.
  - by rewrite Hvalue.
  - apply andb_prop in Hitems as [Hkv Hrest].
    apply andb_prop in Hkv as [Hk Hv].
    destruct (is_key key k); cbn.
    + by rewrite Hk, Hvalue, Hrest.
    + by rewrite Hk, Hv, (IH Hrest).
Qed.

Lemma serializable_paper_info p : serializable (paper_info p) = true.
Proof.
  destruct p as [id t au su url pu]. cbn.
  replace (forallb serializable (map PStr au)) with true.
  - by destruct url.
  - induction au; cbn; done.
Qed.

(** The loop over the results, on a dict. *)
Lemma add_papers_dict results : forall ids items,
  exists items',
    add_papers results ids (PDict items) = inr (ids ++ map short_id results, PDict items')
    /\ (serializable (PDict items) = true -> serializable (PDict items') = true)
    /\ forall id,
         dict_get id items'
         = match last_with_id id results with
           | Some p => Some (paper_info p)
           | None => dict_get id items
           end.
Proof.
  induction results as [|p rest IH]; intros ids items.
  - exists items. cbn. by rewrite app_nil_r.
  - cbn [add_papers set_item].
    destruct (IH (ids ++ [short_id p]) (dict_set (short_id p) (paper_info p) items))
      as (items' & Hrun & Hser & Hget).
    exists items'. split; [|split].
    + rewrite Hrun. cbn. by rewrite <- app_assoc.
    + intros Hitems. apply Hser.
      apply serializable_dict_set; [apply serializable_paper_info|done].
    + intros id. rewrite Hget. cbn [last_with_id].
      destruct (last_with_id id rest); [done|].
      destruct (String.eqb (short_id p) id) eqn:Hid.
      * apply String.eqb_eq in Hid as <-. apply dict_get_set_eq.
      * apply String.eqb_neq in Hid. by apply dict_get_set_ne.
Qed.

Lemma search_papers_dict topic existing old results :
  stored_dict existing = Some old ->
  serializable (PDict old) = true ->
  exists new,
    search_papers topic existing results None
    = inr (SearchResult (PDict new) (papers_info_path (topic_directory topic))
             (map short_id results))
    /\ forall id,
         dict_get id new
         = match last_with_id id results with
           | Some p => Some (paper_info p)
           | None => dict_get id old
           end.
Proof.
  intros Hstored Hold.
  destruct (add_papers_dict results [] old) as (new & Hrun & Hser & Hget).
  destruct (iterencode_serializable 2 (PDict new) 0 (Hser Hold)) as [text Htext].
  exists new. split; [|done].
  unfold search_papers.
  assert (Hstart : match existing with
                   | Loaded papers_info => inr papers_info
                   | FileNotFound _ | JSONDecodeError _ => inr (PDict [])
                   | LoadRaises e => inl e
                   end = @inr exn pyvalue (PDict old)).
  { destruct existing as [[ | | | | | | |items| ]|msg|msg|e]; cbn in Hstored; congruence. }
  rewrite Hstart, Hrun. unfold json_dumps. by rewrite Htext.
Qed.

Lemma last_with_id_elem p results :
  p ∈ results -> exists q, last_with_id (short_id p) results = Some q.
Proof.
  induction results as [|x rest IH]; intros Hin; [by apply elem_of_nil in Hin|].
  cbn. apply elem_of_cons in Hin as [<-|Hin].
  - destruct (last_with_id (short_id p) rest); [eauto|].
    rewrite String.eqb_refl. eauto.
  - destruct (IH Hin) as [q ->]. eauto.
Qed.


(** X6: a paper that [search_papers] has returned is found by
    [extract_info]: when the file that [search_papers] wrote is read back as
    the value written, and the entries listed before it are passed by,
    [extract_info] returns the JSON text of the information of that paper
    (of the last result with its id). *)
Theorem X6_extract_info_after_search_papers
    topic existing old results r p pre post :
  stored_dict existing = Some old ->
  serializable (PDict old) = true ->
  search_papers topic existing results None = inr r ->
  p ∈ results ->
  forallb (passed_by (short_id p)) pre = true ->
  exists q text,
    last_with_id (short_id p) results = Some q
    /\ json_dumps (paper_info q) 2 = inr text
    /\ (extract_info (short_id p)
          (inr (pre ++ (topic_directory topic, DirWithFile (Loaded (written r))) :: post))).1
       = inr text.
Proof.
  intros Hstored Hold Hrun Hin Hpre.
  destruct (search_papers_dict topic existing old results Hstored Hold)
    as (new & Hrun' & Hget).
  rewrite Hrun in Hrun'. injection Hrun' as ->.
  destruct (last_with_id_elem p results Hin) as [q Hq].
  destruct (iterencode_serializable 2 (paper_info q) 0 (serializable_paper_info q))
    as [text Htext].
  exists q, text. split; [done|]. split; [done|].
  cbn [written extract_info]. rewrite <- Htext.
  apply extract_info_loop_first_match; [done|]. by rewrite Hget, Hq.
Qed.

(** ** More properties of the loop *)

Section Rounds.

Context {World : Type}.
Variable methods : World -> object_methods.
Variable mapping_tool_function : gmap string (@capability World).
Variable messages_create : list message -> World -> (exn + list block) * World.

Local Abbreviation execute_tool := (execute_tool methods mapping_tool_function).
Local Abbreviation for_content :=
  (for_content methods mapping_tool_function messages_create).
Local Abbreviation while_process_query :=
  (while_process_query methods mapping_tool_function messages_create).
Local Abbreviation process_query :=
  (process_query methods mapping_tool_function messages_create).
Local Abbreviation chat_while :=
  (chat_while methods mapping_tool_function messages_create).

(** *** The shape of the conversation *)

(** Whatever its outcome, a pass of the loop body appends answered tool
    calls, and after them a lone assistant turn only when the tool of that
    turn has raised; every answered call has been sent to the backend. *)
Lemma for_content_turns ac blocks : forall st r st',
  for_content ac blocks st = (r, st') ->
  exists results trailing,
    messages st'
    = messages st ++ flat_map answered_call (map (pair ac) results) ++ trailing
    /\ length (requests st') = length (requests st) + length results
    /\ (trailing = [] \/ (trailing = [AssistantTurn ac] /\ exists e, r = inl e)).
Proof.
  induction blocks as [|b rest IH]; intros st r st' Hrun.
  - rewrite for_content_nil in Hrun. injection Hrun as _ <-.
    exists [], []. cbn. rewrite app_nil_r. auto with lia.
  - destruct b as [text|tool_id tool_name tool_args|ty].
    + rewrite for_content_text in Hrun. exact (IH _ _ _ Hrun).
    + rewrite for_content_tool_use in Hrun.
      destruct (execute_tool tool_name tool_args (world st)) as [[e|result] w].
      { injection Hrun as <- <-. exists [], [AssistantTurn ac]. cbn.
        repeat split; [lia|]. right. eauto. }
      set (st2 := after_result _ _ _) in Hrun. cbv zeta in Hrun.
      destruct (messages_create (snapshot st2) w) as [[e|resp] w'].
      { injection Hrun as <- <-. exists [ToolResult tool_id result], []. subst st2. cbn.
        rewrite length_app, <- !app_assoc. cbn. auto with lia. }
      destruct (IH _ _ _ Hrun) as (results & trailing & Hm & Hq & Htrail).
      rewrite messages_after_response in Hm. rewrite requests_after_response in Hq.
      exists (ToolResult tool_id result :: results), trailing. subst st2.
      cbn in Hm, Hq |- *. rewrite length_app in Hq. cbn in Hq.
      split; [|split; [lia|done]].
      rewrite Hm. by rewrite <- !app_assoc.
    + rewrite for_content_other in Hrun. exact (IH _ _ _ Hrun).
Qed.

Lemma while_turns fuel : forall st,
  exists calls trailing,
    messages (final_state (while_process_query fuel st))
    = messages st ++ flat_map answered_call calls ++ trailing
    /\ length (requests (final_state (while_process_query fuel st)))
       = length (requests st) + length calls
    /\ (trailing = []
        \/ (has_raised (while_process_query fuel st) = true
            /\ exists l, trailing = [AssistantTurn l])).
Proof.
  induction fuel as [|fuel IH]; intros st.
  - exists [], []. cbn. destruct (process_query_flag st); cbn;
      rewrite app_nil_r; auto with lia.
  - destruct (process_query_flag st) eqn:Hflag.
    2:{ rewrite while_returns by done. exists [], []. cbn.
        rewrite app_nil_r. auto with lia. }
    rewrite while_iterates by done.
    destruct (for_content (length (lists st)) (response st) (after_new_list st))
      as [[e|[]] st1] eqn:Hrun;
      destruct (for_content_turns _ _ _ _ _ Hrun)
        as (results & trailing & Hm & Hq & Htrail); cbn in Hm, Hq.
    + exists (map (pair (length (lists st))) results), trailing. cbn.
      rewrite length_map. repeat split; [done..|].
      destruct Htrail as [->|[-> _]]; [by left|right; eauto].
    + destruct Htrail as [->|[_ [e He]]]; [|done]. rewrite app_nil_r in Hm.
      destruct (IH st1) as (calls & trailing & Hm' & Hq' & Htrail').
      exists (map (pair (length (lists st))) results ++ calls), trailing.
      rewrite Hm', Hq', Hm, Hq, flat_map_app, length_app, length_map.
      split; [by rewrite <- !app_assoc|]. split; [|done].
      symmetry. apply Nat.add_assoc.
Qed.

(** X7: however [process_query] ends (it returns, it raises, or it is still
    running), the conversation is the query followed by answered tool
    calls, each an assistant turn and a tool-result turn of exactly one
    entry; a last assistant turn without its result is there only when
    [process_query] has raised; and the backend has been called once for the
    query and once for every answered call. *)
Theorem X7_conversation_shape fuel query w :
  exists calls trailing,
    messages (final_state (process_query fuel query w))
    = UserTurn query :: flat_map answered_call calls ++ trailing
    /\ length (requests (final_state (process_query fuel query w))) = S (length calls)
    /\ (trailing = []
        \/ (has_raised (process_query fuel query w) = true
            /\ exists l, trailing = [AssistantTurn l])).
Proof.
  rewrite process_query_first_call.
  destruct (messages_create [UserMessage query] w) as [[e|r] w'].
  - exists [], []. cbn. auto.
  - destruct (while_turns fuel
                (PQState [UserTurn query] [] r true [] [[UserMessage query]] w'))
      as (calls & trailing & Hm & Hq & Htrail).
    exists calls, trailing. by rewrite Hm, Hq.
Qed.

(** *** What an iteration finds is never changed *)

Lemma answered_calls_refs ac results trailing l :
  (trailing = [] \/ trailing = [AssistantTurn ac]) ->
  AssistantTurn l ∈ flat_map answered_call (map (pair ac) results) ++ trailing ->
  l = ac.
Proof.
  intros Htrail Hin. apply elem_of_app in Hin as [Hin|Hin].
  - induction results as [|res results IH]; cbn in Hin; [by apply elem_of_nil in Hin|].
    apply elem_of_cons in Hin as [Heq|Hin]; [congruence|].
    apply elem_of_cons in Hin as [Heq|Hin]; [congruence|]. by apply IH.
  - destruct Htrail as [->| ->]; [by apply elem_of_nil in Hin|].
    apply list_elem_of_singleton in Hin. congruence.
Qed.

Lemma iteration_history st r st1 :
  refs_valid st ->
  for_content (length (lists st)) (response st) (after_new_list st) = (r, st1) ->
  refs_valid st1 /\ snapshot st `prefix_of` snapshot st1.
Proof.
  intros Hvalid Hrun.
  destruct (for_content_grows _ _ _ _ _ _ _ _ Hrun) as (_ & Hlen & Hother & _).
  destruct (for_content_turns _ _ _ _ _ Hrun) as (results & trailing & Hm & _ & Htrail).
  cbn [messages lists after_new_list] in Hm, Hlen, Hother.
  rewrite length_app in Hlen. cbn in Hlen.
  assert (Htrail' : trailing = [] \/ trailing = [AssistantTurn (length (lists st))])
    by (destruct Htrail as [->|[-> _]]; auto).
  split.
  - intros l Hl. rewrite Hm in Hl. apply elem_of_app in Hl as [Hl|Hl].
    + specialize (Hvalid l Hl). lia.
    + rewrite (answered_calls_refs _ _ _ _ Htrail' Hl). lia.
  - unfold snapshot. rewrite Hm, map_app. 
    replace (map (read_turn (lists st1)) (messages st))
      with (map (read_turn (lists st)) (messages st)); [by apply prefix_app_r|].
    apply map_ext_in. intros t Ht. apply list_elem_of_In in Ht.
    destruct t as [q|l|rs]; [done| |done]. cbn.
    specialize (Hvalid l Ht). unfold loc in *.
    rewrite Hother by lia. by rewrite lookup_app_l by done.
Qed.

(** X8: what the conversation reads as when an iteration of the [while]
    loop starts is never changed afterwards: it is a prefix of what the
    conversation reads as when the loop ends, however it ends.  (Each
    iteration creates its own list [assistant_content], so that only the
    assistant turns of the iteration under way can still change.) *)
Theorem X8_earlier_iterations_unchanged fuel : forall st,
  refs_valid st ->
  snapshot st `prefix_of` snapshot (final_state (while_process_query fuel st)).
Proof.
  induction fuel as [|fuel IH]; intros st Hvalid.
  - cbn. by destruct (process_query_flag st).
  - destruct (process_query_flag st) eqn:Hflag; [|by rewrite while_returns].
    rewrite while_iterates by done.
    destruct (for_content (length (lists st)) (response st) (after_new_list st))
      as [[e|[]] st1] eqn:Hrun;
      destruct (iteration_history st _ st1 Hvalid Hrun) as [Hvalid1 Hprefix].
    + exact Hprefix.
    + etrans; [exact Hprefix|]. by apply IH.
Qed.

(** *** One tool call, then the answer *)

Lemma for_content_texts_list ac blocks : forall st bs,
  forallb (fun b => negb (is_tool_use b)) blocks = true ->
  lists st !! ac = Some bs ->
  exists st',
    for_content ac blocks st = (inr tt, st')
    /\ lists st' !! ac = Some (bs ++ List.filter is_text blocks)
    /\ length (lists st') = length (lists st).
Proof.
  induction blocks as [|b rest IH]; intros st bs Hno Hbs.
  - exists st. by rewrite app_nil_r.
  - cbn in Hno. apply andb_prop in Hno as [Hb Hrest].
    destruct b as [text|tool_id tool_name tool_args|ty]; [|done|].
    + rewrite for_content_text.
      destruct (IH (after_text ac text st) (bs ++ [TextBlock text]) Hrest)
        as (st' & Hrun & Hlist & Hlen).
      { cbn. unfold loc in *. by rewrite list_lookup_alter_eq, Hbs. }
      exists st'. cbn in Hlen |- *. rewrite length_alter in Hlen.
      by rewrite <- app_assoc in Hlist.
    + rewrite for_content_other. exact (IH st bs Hrest Hbs).
Qed.

(** X9: the round the loop is written for.  When the first response is
    text followed by one tool call, the tool returns a result, and the
    backend answers the conversation [query, assistant turn, tool-result
    turn] with a single text block, then [process_query] returns after two
    backend calls; it has printed the text of the response, the tool call
    and the answer, in this order; and the second call was sent the query,
    one assistant turn with the text and tool-call blocks of the response,
    and one tool-result turn with the result under the id of the call. *)
Theorem X9_one_tool_round query w pre tool_id tool_name tool_args w1 result w2 answer w3 :
  forallb (fun b => negb (is_tool_use b)) pre = true ->
  messages_create [UserMessage query] w
  = (inr (pre ++ [ToolUseBlock tool_id tool_name tool_args]), w1) ->
  execute_tool tool_name tool_args w1 = (inr result, w2) ->
  messages_create
    [UserMessage query;
     AssistantMessage (List.filter is_text pre ++ [ToolUseBlock tool_id tool_name tool_args]);
     ToolResultMessage [ToolResult tool_id result]] w2
  = (inr [TextBlock answer], w3) ->
  forall fuel, exists st,
    process_query (S fuel) query w = Returns st
    /\ stdout st
       = block_events pre ++ [PrintCallingTool tool_name tool_args; PrintText answer]
    /\ requests st
       = [[UserMessage query];
          [UserMessage query;
           AssistantMessage
             (List.filter is_text pre ++ [ToolUseBlock tool_id tool_name tool_args]);
           ToolResultMessage [ToolResult tool_id result]]]
    /\ world st = w3.
Proof.
  intros Hpre Hfirst Hexec Hsecond fuel.
  rewrite process_query_first_call, Hfirst.
  rewrite while_iterates by done. cbn [response lists length].
  rewrite for_content_app.
  set (st0 := after_new_list _).
  destruct (for_content_no_tool_use methods mapping_tool_function messages_create
              0 pre st0 Hpre)
    as (st1 & Hrun & Hm & Hr & Hq & Hw & Hout & Hflag).
  destruct (for_content_texts_list 0 pre st0 [] Hpre eq_refl)
    as (st1' & Hrun' & Hlist & Hlen).
  rewrite Hrun in Hrun'. injection Hrun' as <-. rewrite Hrun.
  rewrite for_content_tool_use, Hw. cbn [world st0 after_new_list]. rewrite Hexec.
  set (st2 := after_result _ _ _). cbv zeta.
  assert (Hsnap : snapshot st2
          = [UserMessage query;
             AssistantMessage
               (List.filter is_text pre ++ [ToolUseBlock tool_id tool_name tool_args]);
             ToolResultMessage [ToolResult tool_id result]]).
  { unfold snapshot, st2. cbn [messages lists after_result after_call].
    rewrite Hm. cbn. unfold loc in *. by rewrite list_lookup_alter_eq, Hlist. }
  rewrite Hsnap, Hsecond, for_content_nil.
  eexists. split; [by apply while_returns|].
  cbn [stdout requests world after_response after_request]. rewrite Hsnap.
  unfold st2. cbn. rewrite Hout, Hq. cbn. by rewrite <- !app_assoc.
Qed.

(** *** No bound on the number of rounds *)

Lemma while_keeps_calling tool_name fuel :
  (forall tool_args w, exists result w',
      execute_tool tool_name tool_args w = (inr result, w')) ->
  (forall request w, exists tool_id tool_args w',
      messages_create request w = (inr [ToolUseBlock tool_id tool_name tool_args], w')) ->
  forall st,
    process_query_flag st = true ->
    (exists tool_id tool_args, response st = [ToolUseBlock tool_id tool_name tool_args]) ->
    exists st',
      while_process_query fuel st = OutOfFuel st'
      /\ length (requests st') = length (requests st) + fuel.
Proof.
  intros Htool Hbackend.
  induction fuel as [|fuel IH]; intros st Hflag (tool_id & tool_args & Hresp).
  - exists st. cbn. rewrite Hflag. auto with lia.
  - rewrite while_iterates by done. rewrite Hresp, for_content_tool_use.
    cbn [world after_new_list].
    destruct (Htool tool_args (world st)) as (result & w1 & ->). cbv zeta.
    set (st2 := after_result _ _ _).
    destruct (Hbackend (snapshot st2) w1) as (tool_id' & tool_args' & w2 & Hcreate).
    rewrite Hcreate, for_content_nil.
    destruct (IH (after_response [ToolUseBlock tool_id' tool_name tool_args']
                    (after_request w2 st2))) as (st' & Hrun & Hlen); [done|by eauto|].
    exists st'. split; [done|]. rewrite Hlen. subst st2. cbn.
    rewrite length_app. cbn. lia.
Qed.

(** X10: nothing bounds the number of rounds.  With a backend that answers
    every request with one call of a tool that works ([execute_tool]
    returns a string for it), [process_query] never returns and never
    raises: with [fuel] iterations allowed it is still running after them,
    and has called the backend [fuel + 1] times. *)
Theorem X10_no_bound_on_rounds tool_name :
  (forall tool_args w, exists result w',
      execute_tool tool_name tool_args w = (inr result, w')) ->
  (forall request w, exists tool_id tool_args w',
      messages_create request w = (inr [ToolUseBlock tool_id tool_name tool_args], w')) ->
  forall fuel query w, exists st,
    process_query fuel query w = OutOfFuel st
    /\ length (requests st) = S fuel.
Proof.
  intros Htool Hbackend fuel query w.
  rewrite process_query_first_call.
  destruct (Hbackend [UserMessage query] w) as (tool_id & tool_args & w' & ->).
  destruct (while_keeps_calling tool_name fuel Htool Hbackend
              (PQState [UserTurn query] []
                 [ToolUseBlock tool_id tool_name tool_args] true []
                 [[UserMessage query]] w'))
    as (st & Hrun & Hlen); [done|by eauto|].
  exists st. by rewrite Hrun, Hlen.
Qed.

(** *** The chat loop at the end of the input and at ['quit'] *)

Lemma lower_char_space c : is_space c = true -> lower_char c = c.
Proof. destruct c as [[] [] [] [] [] [] [] []]; vm_compute; congruence. Qed.

Lemma lower_no_space s : no_space (lower s) = true -> no_space s = true.
Proof.
  induction s as [|c rest IH]; cbn [no_space lower]; [done|].
  intros Hs. apply andb_prop in Hs as [Hc Hrest]. rewrite (IH Hrest), andb_true_r.
  destruct (is_space c) eqn:Hspace; [|done].
  rewrite (lower_char_space c Hspace) in Hc. by rewrite Hspace in Hc.
Qed.

Lemma lstrip_no_space s : no_space s = true -> lstrip s = s.
Proof.
  destruct s as [|c rest]; cbn [no_space lstrip]; [done|].
  by destruct (is_space c).
Qed.

Lemma rstrip_no_space s : no_space s = true -> rstrip s = s.
Proof.
  induction s as [|c rest IH]; cbn [no_space rstrip]; [done|].
  intros Hs. apply andb_prop in Hs as [Hc Hrest]. rewrite (IH Hrest).
  destruct rest; [|done]. by destruct (is_space c).
Qed.

Lemma lstrip_padding ws s : all_space ws = true -> lstrip (ws +:+ s) = lstrip s.
Proof.
  induction ws as [|c ws IH]; [done|].
  cbn [all_space]. intros Hws. apply andb_prop in Hws as [Hc Hws].
  change (lstrip (String c (ws +:+ s)) = lstrip s).
  cbn [lstrip]. rewrite Hc. by apply IH.
Qed.

Lemma rstrip_all_space ws : all_space ws = true -> rstrip ws = EmptyString.
Proof.
  induction ws as [|c ws IH]; [done|].
  cbn [all_space rstrip]. intros Hws. apply andb_prop in Hws as [Hc Hws].
  by rewrite (IH Hws), Hc.
Qed.

Lemma rstrip_padding s ws : all_space ws = true -> rstrip (s +:+ ws) = rstrip s.
Proof.
  intros Hws. induction s as [|c rest IH].
  - by apply rstrip_all_space.
  - change (rstrip (String c (rest +:+ ws)) = rstrip (String c rest)).
    cbn [rstrip]. by rewrite IH.
Qed.

(** [strip] removes the white space around a text that holds none. *)
Lemma strip_padding ws1 s ws2 :
  all_space ws1 = true -> all_space ws2 = true -> no_space s = true ->
  strip (ws1 +:+ s +:+ ws2) = s.
Proof.
  intros Hws1 Hws2 Hs. unfold strip. rewrite (lstrip_padding _ _ Hws1).
  destruct s as [|c rest].
  - change (rstrip (lstrip ws2) = EmptyString).
    replace (lstrip ws2) with EmptyString; [done|].
    clear -Hws2. induction ws2 as [|c ws IH]; [done|].
    cbn [all_space] in Hws2. apply andb_prop in Hws2 as [Hc Hws].
    cbn [lstrip]. rewrite Hc. by apply IH.
  - assert (Hc : is_space c = false).
    { cbn [no_space] in Hs. apply andb_prop in Hs as [Hc _]. by destruct (is_space c). }
    change (rstrip (lstrip (String c (rest +:+ ws2))) = String c rest).
    cbn [lstrip]. rewrite Hc.
    change (String c (rest +:+ ws2)) with (String c rest +:+ ws2).
    rewrite (rstrip_padding _ _ Hws2). by apply rstrip_no_space.
Qed.

(** X12: a line that is ['quit'] in any casing, with any white space before
    and after it, ends [chat_loop] at once: the backend is not called for
    it and the lines after it are not read. *)
Theorem X12_quit_in_any_case_and_padding fuel pq_fuel ws1 s ws2 stdin out w :
  all_space ws1 = true ->
  all_space ws2 = true ->
  lower s = "quit" ->
  chat_while (S fuel) pq_fuel ((ws1 +:+ s +:+ ws2) :: stdin) out w
  = ChatExits (out ++ [PrintPrompt]) stdin w.
Proof.
  intros Hws1 Hws2 Hquit. cbn [chat_while].
  rewrite (strip_padding _ _ _ Hws1 Hws2), Hquit; [done|].
  apply lower_no_space. by rewrite Hquit.
Qed.

(** X11: when no line is left to read, [chat_loop] does not stop: at every
    iteration [input] prints the prompt and raises [EOFError], which the
    handler prints, and the loop goes on; the backend is not called. *)
Theorem X11_chat_loop_spins_at_end_of_input fuel pq_fuel : forall out w,
  chat_while fuel pq_fuel [] out w
  = ChatOutOfFuel
      (out ++ concat (replicate fuel [PrintPrompt; PrintError EOFError])) [] w.
Proof.
  induction fuel as [|fuel IH]; intros out w; cbn [chat_while replicate concat].
  - by rewrite app_nil_r.
  - rewrite IH. by rewrite <- app_assoc.
Qed.

End Rounds.

(** ** What is announced is what the conversation records *)

Section Announcements.

Context {World : Type}.
Variable methods : World -> object_methods.
Variable mapping_tool_function : gmap string (@capability World).
Variable messages_create : list message -> World -> (exn + list block) * World.

Local Abbreviation for_content :=
  (for_content methods mapping_tool_function messages_create).
Local Abbreviation while_process_query :=
  (while_process_query methods mapping_tool_function messages_create).
Local Abbreviation process_query :=
  (process_query methods mapping_tool_function messages_create).

Lemma tool_calls_printed_app out1 out2 :
  tool_calls_printed (out1 ++ out2) = tool_calls_printed out1 + tool_calls_printed out2.
Proof. unfold tool_calls_printed. by rewrite List.filter_app, length_app. Qed.

Lemma assistant_turns_app turns1 turns2 :
  assistant_turns (turns1 ++ turns2) = assistant_turns turns1 + assistant_turns turns2.
Proof. unfold assistant_turns. by rewrite List.filter_app, length_app. Qed.

Lemma assistant_turns_result turns results :
  assistant_turns (turns ++ [ToolResultTurn results]) = assistant_turns turns.
Proof. rewrite assistant_turns_app. cbn. lia. Qed.

Lemma tool_calls_printed_after_response r (st : @pq_state World) :
  tool_calls_printed (stdout (after_response r st)) = tool_calls_printed (stdout st).
Proof.
  destruct r as [|[text| |] [|]]; try done. cbn [stdout after_response].
  rewrite tool_calls_printed_app. cbn. lia.
Qed.

Lemma for_content_announces ac blocks : forall st r st',
  for_content ac blocks st = (r, st') ->
  exists n,
    tool_calls_printed (stdout st') = tool_calls_printed (stdout st) + n
    /\ assistant_turns (messages st') = assistant_turns (messages st) + n.
Proof.
  induction blocks as [|b rest IH]; intros st r st' Hrun.
  - rewrite for_content_nil in Hrun. injection Hrun as _ <-. exists 0. lia.
  - destruct b as [text|tool_id tool_name tool_args|ty].
    + rewrite for_content_text in Hrun.
      destruct (IH _ _ _ Hrun) as (n & Hout & Hm). exists n.
      cbn [stdout messages after_text] in Hout, Hm.
      rewrite tool_calls_printed_app in Hout. cbn in Hout. lia.
    + rewrite for_content_tool_use in Hrun.
      assert (Hcall : forall w,
                tool_calls_printed
                  (stdout (after_call ac (ToolUseBlock tool_id tool_name tool_args)
                             tool_name tool_args w st))
                = tool_calls_printed (stdout st) + 1
                /\ assistant_turns
                     (messages (after_call ac (ToolUseBlock tool_id tool_name tool_args)
                                  tool_name tool_args w st))
                   = assistant_turns (messages st) + 1).
      { intros w. cbn [stdout messages after_call].
        by rewrite tool_calls_printed_app, assistant_turns_app. }
      destruct (execute_tool methods mapping_tool_function tool_name tool_args (world st))
        as [[e|result] w].
      { injection Hrun as _ <-. exists 1. apply Hcall. }
      destruct (Hcall w) as [Hout1 Hm1].
      set (st1 := after_call _ _ _ _ _ _) in *. cbv zeta in Hrun.
      destruct (messages_create (snapshot (after_result tool_id result st1)) w)
        as [[e|resp] w'].
      { injection Hrun as _ <-. exists 1. cbn [stdout messages after_request after_result].
        by rewrite assistant_turns_result. }
      destruct (IH _ _ _ Hrun) as (n & Hout & Hm). exists (S n).
      rewrite tool_calls_printed_after_response in Hout.
      rewrite messages_after_response in Hm.
      cbn [stdout messages after_request after_result] in Hout, Hm.
      rewrite assistant_turns_result in Hm. lia.
    + rewrite for_content_other in Hrun. exact (IH _ _ _ Hrun).
Qed.

Lemma while_announces fuel : forall st,
  tool_calls_printed (stdout st) = assistant_turns (messages st) ->
  tool_calls_printed (stdout (final_state (while_process_query fuel st)))
  = assistant_turns (messages (final_state (while_process_query fuel st))).
Proof.
  induction fuel as [|fuel IH]; intros st Hst.
  - cbn. by destruct (process_query_flag st).
  - destruct (process_query_flag st) eqn:Hflag; [|by rewrite while_returns].
    rewrite while_iterates by done.
    destruct (for_content (length (lists st)) (response st) (after_new_list st))
      as [[e|[]] st1] eqn:Hrun;
      destruct (for_content_announces _ _ _ _ _ Hrun) as (n & Hout & Hm);
      cbn [stdout messages after_new_list] in Hout, Hm.
    + cbn. lia.
    + apply IH. lia.
Qed.

(** X13: however [process_query] ends, it has printed as many lines
    [Calling tool ...] as the conversation holds assistant turns: a tool
    call is announced exactly when its assistant turn is recorded. *)
Theorem X13_announced_calls_are_recorded fuel query w :
  tool_calls_printed (stdout (final_state (process_query fuel query w)))
  = assistant_turns (messages (final_state (process_query fuel query w))).
Proof.
  rewrite process_query_first_call.
  destruct (messages_create [UserMessage query] w) as [[e|r] w']; [done|].
  by apply while_announces.
Qed.

End Announcements.

(** ** The further properties on concrete runs *)

Lemma X1_execute_tool_raises_witness :
  demo_tools !! "counts" = Some (pure_tool (fun _ => inr (PList [PInt 1; PInt 2])))
  /\ forallb is_str [PInt 1; PInt 2] = false
  /\ execute_tool at_address demo_tools "counts" (PDict []) 0 = (inl TypeError, 0).
Proof.
  assert (Hsome : demo_tools !! "counts"
                  = Some (pure_tool (fun _ => inr (PList [PInt 1; PInt 2]))))
    by (vm_compute; reflexivity).
  split; [exact Hsome|]. split; [reflexivity|].
  destruct (X1_execute_tool_raises at_address demo_tools "counts" _ (PDict []) 0 _ 0
              Hsome eq_refl) as [Hlist _].
  by apply (Hlist [PInt 1; PInt 2]).
Defined.

Lemma X2_extract_info_not_saved_witness :
  forallb (passed_by "2208.00733v1") demo_listing = true
  /\ (extract_info "2208.00733v1" (inr demo_listing)).1
     = inr "There's no saved information related to paper 2208.00733v1.".
Proof.
  split; [reflexivity|].
  apply (X2_extract_info_not_saved "2208.00733v1" demo_listing). reflexivity.
Defined.

Lemma X3_extract_info_first_match_witness :
  forallb (passed_by "1310.7911v2") unreadable_entries = true
  /\ dict_get "1310.7911v2" stored_computers = Some (paper_info paper_a)
  /\ (extract_info "1310.7911v2" (inr demo_listing)).1
     = json_dumps (paper_info paper_a) 2.
Proof.
  split; [reflexivity|]. split; [reflexivity|].
  apply (X3_extract_info_first_match "1310.7911v2" unreadable_entries "computers"
           stored_computers (paper_info paper_a) []); reflexivity.
Defined.


Lemma X6_extract_info_after_search_papers_witness :
  stored_dict (FileNotFound "No such file or directory") = Some []
  /\ paper_b ∈ [paper_a; paper_b]
  /\ forallb (passed_by (short_id paper_b)) unreadable_entries = true
  /\ exists r q text,
       search_papers "Quantum Internet" (FileNotFound "No such file or directory")
         [paper_a; paper_b] None = inr r
       /\ last_with_id (short_id paper_b) [paper_a; paper_b] = Some q
       /\ json_dumps (paper_info q) 2 = inr text
       /\ (extract_info (short_id paper_b)
             (inr (unreadable_entries
                   ++ ("quantum_internet", DirWithFile (Loaded (written r))) :: []))).1
          = inr text.
Proof.
  assert (Hin : paper_b ∈ [paper_a; paper_b]) by repeat constructor.
  split; [reflexivity|]. split; [exact Hin|]. split; [reflexivity|].
  eexists. 
  destruct (X6_extract_info_after_search_papers "Quantum Internet"
              (FileNotFound "No such file or directory") [] [paper_a; paper_b]
              _ paper_b unreadable_entries [] eq_refl eq_refl eq_refl Hin eq_refl)
    as (q & text & Hq & Htext & Hfound).
  exists q, text. split; [reflexivity|]. split; [exact Hq|]. split; [exact Htext|].
  exact Hfound.
Defined.

Lemma X8_earlier_iterations_unchanged_witness :
  refs_valid (state_at [call_search; call_extract])
  /\ snapshot (state_at [call_search; call_extract])
       `prefix_of`
     snapshot (final_state
                 (while_process_query at_address demo_tools (scripted parallel_script) 3
                    (state_at [call_search; call_extract]))).
Proof.
  assert (Hvalid : refs_valid (state_at [call_search; call_extract])).
  { intros l Hl. apply list_elem_of_singleton in Hl. discriminate Hl. }
  split; [exact Hvalid|].
  apply (X8_earlier_iterations_unchanged at_address demo_tools (scripted parallel_script) 3
           (state_at [call_search; call_extract]) Hvalid).
Defined.

Lemma X9_one_tool_round_witness :
  exists st,
    process_query at_address demo_tools (scripted one_tool_script) 1 "q" 0 = Returns st
    /\ stdout st
       = block_events [TextBlock "Searching."]
         ++ [PrintCallingTool "search_papers" (PDict [(PStr "topic", PStr "computers")]);
             PrintText "Found two."]
    /\ requests st
       = [[UserMessage "q"];
          [UserMessage "q";
           AssistantMessage (List.filter is_text [TextBlock "Searching."] ++ [call_search]);
           ToolResultMessage [ToolResult "toolu_A" "1310.7911v2, 2208.00733v1"]]]
    /\ world st = 2.
Proof.
  apply (X9_one_tool_round at_address demo_tools (scripted one_tool_script) "q" 0
           [TextBlock "Searching."] "toolu_A" "search_papers"
           (PDict [(PStr "topic", PStr "computers")]) 1
           "1310.7911v2, 2208.00733v1" 1 "Found two." 2);
    vm_compute; reflexivity.
Defined.

Lemma X10_no_bound_on_rounds_witness :
  (forall tool_args w,
     execute_tool at_address demo_tools "search_papers" tool_args w
     = (inr "1310.7911v2, 2208.00733v1", w))
  /\ exists st,
       process_query at_address demo_tools (insistent call_search) 4 "q" 0 = OutOfFuel st
       /\ length (requests st) = 5.
Proof.
  assert (Htool : forall tool_args w,
            execute_tool at_address demo_tools "search_papers" tool_args w
            = (inr "1310.7911v2, 2208.00733v1", w))
    by (intros tool_args w; vm_compute; reflexivity).
  split; [exact Htool|].
  apply (X10_no_bound_on_rounds at_address demo_tools (insistent call_search)
           "search_papers").
  - intros tool_args w. eexists _, _. apply Htool.
  - intros request w. eexists _, _, _. reflexivity.
Defined.

Lemma X12_quit_in_any_case_and_padding_witness :
  all_space "  " = true
  /\ all_space " " = true
  /\ lower "QuIt" = "quit"
  /\ chat_while at_address demo_tools (scripted []) 1 5
       [("  " +:+ "QuIt" +:+ " "); "never read"]
       [PrintBanner] 0
     = ChatExits ([PrintBanner] ++ [PrintPrompt]) ["never read"] 0.
Proof.
  split; [reflexivity|]. split; [reflexivity|]. split; [reflexivity|].
  apply (X12_quit_in_any_case_and_padding at_address demo_tools (scripted [])
           0 5 "  " "QuIt" " ");
    reflexivity.
Defined.
